(** * GasAWS: the AWS Signature Version 4 request signer of the
    Google Apps Script module [AWS] (closure in GasAWS.js).

    The development embeds the JavaScript of the module shallowly:
    - JavaScript strings are sequences of UTF-16 code units ([list N]);
    - JavaScript values reaching the signer are a small tagged union;
    - the module's closure variables, the objects it mutates, the clock
      and the calls into the Apps Script host ([Utilities], [Logger],
      [UrlFetchApp]) live in an explicit [world] threaded by a state and
      exception monad;
    - the host's SHA-256 and HMAC-SHA256 are executable definitions. *)

From Stdlib Require Import ZArith NArith Ascii String List Lia Bool.
From stdpp Require Import base option list gmap sorting.

Open Scope N_scope.
Open Scope list_scope.

(** ** JavaScript strings *)

(** A JavaScript string is a sequence of UTF-16 code units. *)
Abbreviation jsstring := (list N).

(** The code units of an ASCII literal of the source. *)
Definition js (s : string) : jsstring :=
  map N_of_ascii (list_ascii_of_string s).
Arguments js : simpl never.

(** [a < b] on strings: lexicographic on code units. *)
Fixpoint str_lt (a b : jsstring) : bool :=
  match a, b with
  | _, [] => false
  | [], _ :: _ => true
  | x :: a', y :: b' =>
      if x <? y then true else if y <? x then false else str_lt a' b'
  end.

Definition str_eqb (a b : jsstring) : bool := bool_decide (a = b).

(** [String.prototype.toLowerCase], on the ASCII range: method names and
    header field names are ASCII tokens; code units from 128 up are left
    as they are. *)
Definition lower_unit (c : N) : N :=
  if (65 <=? c) && (c <=? 90) then c + 32 else c.

Definition toLowerCase (s : jsstring) : jsstring := map lower_unit s.

(** [String.prototype.substring(0, n)] for [0 <= n]. *)
Definition substring0 (n : nat) (s : jsstring) : jsstring := take n s.

(** [Array.prototype.join] on an array of strings. *)
Fixpoint join (sep : jsstring) (l : list jsstring) : jsstring :=
  match l with
  | [] => []
  | [x] => x
  | x :: rest => x ++ sep ++ join sep rest
  end.

(** ** Numbers to text *)

Definition digit_unit (d : N) : N :=
  if d <? 10 then 48 + d else 87 + d.

(** Digits of [n] in base [base], most significant first; [fuel] bounds
    the number of digits. *)
Fixpoint digits_fuel (fuel : nat) (base n : N) (acc : jsstring) : jsstring :=
  match fuel with
  | O => acc
  | S fuel' =>
      let acc' := digit_unit (n mod base) :: acc in
      if n / base =? 0 then acc' else digits_fuel fuel' base (n / base) acc'
  end.

Definition digits (base n : N) : jsstring :=
  digits_fuel (S (N.to_nat (N.log2 n))) base n [].

(** [Number.prototype.toString(radix)] on an integer, radix 10 or 16:
    lower-case digits, no leading zero, a minus sign for negatives. *)
Definition toStringRadix (radix : N) (z : Z) : jsstring :=
  match z with
  | Z0 => js "0"
  | Zpos p => digits radix (Npos p)
  | Zneg p => js "-" ++ digits radix (Npos p)
  end.

(** ** UTF-16 code points and UTF-8 *)

Definition is_high_surrogate (c : N) : bool := (55296 <=? c) && (c <=? 56319).
Definition is_low_surrogate (c : N) : bool := (56320 <=? c) && (c <=? 57343).

(** [StringToCodePoints]: [None] stands for an unpaired surrogate. *)
Fixpoint CodePoints (s : jsstring) : list (option N) :=
  match s with
  | [] => []
  | c :: rest =>
      if is_high_surrogate c then
        match rest with
        | d :: rest' =>
            if is_low_surrogate d
            then Some (65536 + (c - 55296) * 1024 + (d - 56320)) :: CodePoints rest'
            else None :: CodePoints rest
        | [] => [None]
        end
      else if is_low_surrogate c then None :: CodePoints rest
      else Some c :: CodePoints rest
  end.

(** The UTF-8 octets of one code point. *)
Definition utf8_octets (cp : N) : list N :=
  if cp <? 128 then [cp]
  else if cp <? 2048 then [192 + cp / 64; 128 + cp mod 64]
  else if cp <? 65536 then
    [224 + cp / 4096; 128 + (cp / 64) mod 64; 128 + cp mod 64]
  else
    [240 + cp / 262144; 128 + (cp / 4096) mod 64;
     128 + (cp / 64) mod 64; 128 + cp mod 64].

(** ** The host's hashing primitives *)

Module SHA256.

(** Words of thirty-two bits, as [N] below [w32]. *)
Definition w32 : N := 4294967296.

Definition add32 (a b : N) : N := (a + b) mod w32.

Definition rotr (n x : N) : N :=
  N.lor (N.shiftr x n) (N.shiftl x (32 - n) mod w32).

Definition not32 (x : N) : N := N.lxor x 4294967295.

Definition Ch (x y z : N) : N :=
  N.lxor (N.land x y) (N.land (not32 x) z).

Definition Maj (x y z : N) : N :=
  N.lxor (N.lxor (N.land x y) (N.land x z)) (N.land y z).

Definition Sigma0 (x : N) : N :=
  N.lxor (N.lxor (rotr 2 x) (rotr 13 x)) (rotr 22 x).

Definition Sigma1 (x : N) : N :=
  N.lxor (N.lxor (rotr 6 x) (rotr 11 x)) (rotr 25 x).

Definition sigma0 (x : N) : N :=
  N.lxor (N.lxor (rotr 7 x) (rotr 18 x)) (N.shiftr x 3).

Definition sigma1 (x : N) : N :=
  N.lxor (N.lxor (rotr 17 x) (rotr 19 x)) (N.shiftr x 10).

Definition is_prime (n : N) : bool :=
  forallb (fun d => negb (n mod d =? 0))
          (map N.of_nat (seq 2 (N.to_nat n - 2))).

(** The first sixty-four primes, 2 to 311. *)
Definition primes64 : list N :=
  Eval vm_compute in List.filter is_prime (map N.of_nat (seq 2 310)).

(** The integer cube root, bit by bit from bit [bits - 1] down. *)
Fixpoint cube_root (bits : nat) (n acc : N) : N :=
  match bits with
  | O => acc
  | S b =>
      let c := acc + 2 ^ N.of_nat b in
      if c * c * c <=? n then cube_root b n c else cube_root b n acc
  end.

(** The round constants: the first thirty-two bits of the fractional
    parts of the cube roots of the primes. *)
Definition K : list N :=
  Eval vm_compute in map (fun p => cube_root 40 (p * 2 ^ 96) 0 mod w32) primes64.

(** The initial hash value: likewise of the square roots of the first
    eight primes. *)
Definition H0 : list N :=
  Eval vm_compute in map (fun p => N.sqrt (p * 2 ^ 64) mod w32) (take 8 primes64).

(** Big-endian words of a block of octets. *)
Fixpoint words (l : list N) : list N :=
  match l with
  | a :: b :: c :: d :: rest =>
      (((a * 256 + b) * 256 + c) * 256 + d) :: words rest
  | _ => []
  end.

Definition word_octets (w : N) : list N :=
  [ w / 16777216; (w / 65536) mod 256; (w / 256) mod 256; w mod 256 ].

(** The message schedule: [win] holds the last sixteen words. *)
Fixpoint schedule (n : nat) (win : list N) : list N :=
  match n with
  | O => []
  | S n' =>
      let w := add32 (add32 (sigma1 (nth 14 win 0)) (nth 9 win 0))
                     (add32 (sigma0 (nth 1 win 0)) (nth 0 win 0)) in
      w :: schedule n' (tl win ++ [w])
  end.

Definition round (st : list N) (kw : N * N) : list N :=
  match st with
  | [a; b; c; d; e; f; g; h] =>
      let t1 := add32 (add32 (add32 h (Sigma1 e)) (add32 (Ch e f g) (fst kw))) (snd kw) in
      let t2 := add32 (Sigma0 a) (Maj a b c) in
      [add32 t1 t2; a; b; c; add32 d t1; e; f; g]
  | _ => st
  end.

Definition compress (hs : list N) (block : list N) : list N :=
  let w16 := words block in
  let w := w16 ++ schedule 48 w16 in
  zip_with add32 hs (fold_left round (zip K w) hs).

Definition pad (msg : list N) : list N :=
  let len := N.of_nat (length msg) in
  let zeros := N.to_nat ((64 - (len + 9) mod 64) mod 64) in
  msg ++ [128] ++ replicate zeros 0
      ++ word_octets ((len * 8) / w32) ++ word_octets ((len * 8) mod w32).

Fixpoint blocks (n : nat) (l : list N) : list (list N) :=
  match n with
  | O => []
  | S n' => take 64 l :: blocks n' (drop 64 l)
  end.

(** Modelled from the spec: the host function
    [Utilities.computeDigest(SHA_256, _)] is not part of the module's
    source; section 4.1 names it SHA-256 over byte content, written out
    here after FIPS 180-4 on octets [0..255]. *)
Definition sha256 (msg : list N) : list N :=
  let p := pad msg in
  flat_map word_octets
    (fold_left compress (blocks (Nat.div (length p) 64) p) H0).

Definition xor_pad (c : N) (key : list N) : list N :=
  map (N.lxor c) (key ++ replicate (64 - length key)%nat 0).

(** Modelled from the spec: the host function
    [Utilities.computeHmacSha256Signature] is not part of the module's
    source; section 4.1 names it HMAC-SHA256 over a byte message and a
    byte key, written out here after RFC 2104. *)
Definition hmac_sha256 (key msg : list N) : list N :=
  let k := if (64 <? length key)%nat then sha256 key else key in
  sha256 (xor_pad 92 k ++ sha256 (xor_pad 54 k ++ msg)).

End SHA256.

(** ** JavaScript values *)

(** The values that reach the signer.  [VNum] is an integral number,
    of a magnitude at which [ToString] writes every digit (below 10^21);
    [VObj json] is a plain object, kept as the text [JSON.stringify]
    gives for it. *)
Inductive value : Type :=
  | VUndefined
  | VNull
  | VBool (b : bool)
  | VNum (n : Z)
  | VNaN
  | VStr (s : jsstring)
  | VObj (json : jsstring).

(** [ToBoolean]: what [!v], [v || d] and [filter(Boolean)] test. *)
Definition truthy (v : value) : bool :=
  match v with
  | VUndefined | VNull | VNaN => false
  | VBool b => b
  | VNum n => negb (n =? 0)%Z
  | VStr s => negb (str_eqb s [])
  | VObj _ => true
  end.

(** [v || d] *)
Definition or_default (v d : value) : value := if truthy v then v else d.

(** [ToString], as template literals, [+] on a string and [join] apply it. *)
Definition ToString (v : value) : jsstring :=
  match v with
  | VUndefined => js "undefined"
  | VNull => js "null"
  | VBool true => js "true"
  | VBool false => js "false"
  | VNum n => toStringRadix 10 n
  | VNaN => js "NaN"
  | VStr s => s
  | VObj _ => js "[object Object]"
  end.

(** [typeof(v) === "string"] *)
Definition is_string (v : value) : bool :=
  match v with VStr _ => true | _ => false end.

(** [v == "..."] against a string literal that is not numeric. *)
Definition loose_eq_str (v : value) (lit : jsstring) : bool :=
  match v with VStr s => str_eqb s lit | _ => false end.

Definition hex4 (c : N) : jsstring :=
  [digit_unit (c / 4096); digit_unit ((c / 256) mod 16);
   digit_unit ((c / 16) mod 16); digit_unit (c mod 16)].

(** [QuoteJSONString] on one code point of the string. *)
Definition quote_unit (cp : option N) (c : N) : jsstring :=
  if c =? 8 then js "\b" else if c =? 9 then js "\t"
  else if c =? 10 then js "\n" else if c =? 12 then js "\f"
  else if c =? 13 then js "\r" else if c =? 34 then [92; 34]
  else if c =? 92 then [92; 92]
  else match cp with
       | Some p => if p <? 32 then js "\u" ++ hex4 p
                   else if p <? 65536 then [p]
                   else [55296 + (p - 65536) / 1024; 56320 + (p - 65536) mod 1024]
       | None => js "\u" ++ hex4 c
       end.

(** The code units behind the code points of [CodePoints], in step. *)
Fixpoint lone_units (s : jsstring) : list N :=
  match s with
  | [] => []
  | c :: rest =>
      if is_high_surrogate c then
        match rest with
        | d :: rest' =>
            if is_low_surrogate d then c :: lone_units rest' else c :: lone_units rest
        | [] => [c]
        end
      else c :: lone_units rest
  end.

(** [JSON.stringify]; it answers [undefined] for [undefined].  The
    values of [value] are finite trees of JSON data, on which it never
    throws; the [TypeError] it raises for a cyclic object or a BigInt is
    outside this type. *)
Definition JSON_stringify (v : value) : value :=
  match v with
  | VUndefined => VUndefined
  | VNull | VNaN => VStr (js "null")
  | VBool _ | VNum _ => VStr (ToString v)
  | VStr s =>
      VStr ([34] ++ concat (zip_with quote_unit (CodePoints s) (lone_units s)) ++ [34])
  | VObj json => VStr json
  end.

(** ** The world of the module *)

(** References to JavaScript objects used as header maps. *)
Abbreviation loc := positive.

(** A header or parameter object: own properties by name. *)
Abbreviation object := (gmap jsstring value).

(** The object literal [BuildRequest] returns; [headers] is a reference. *)
Record requestObject : Type := {
  url : jsstring;
  method : jsstring;
  headers : loc;
  muteHttpExceptions : bool;
  payload : value
}.

(** Calls into the Apps Script host. *)
Inductive event : Type :=
  | EFormatDate
  | EDigest (input : jsstring)
  | EHmac (input key : list Z)
  | ELog (text : jsstring)
  | ELogRequest (r : requestObject)
  | EFetch (r : requestObject).

Record world : Type := {
  accessKey : value;            (* closure variable, see Init *)
  secretKey : value;            (* closure variable, see Init *)
  heap : gmap loc object;       (* header objects, by reference *)
  now : jsstring;               (* what formatDate(new Date(), ...) gives *)
  reply : jsstring;             (* what the next fetch answers *)
  calls : list event            (* host calls so far, newest first *)
}.

Inductive error : Type :=
  | Error (message : jsstring)
  | TypeError
  | URIError.

Inductive result (A : Type) : Type :=
  | Return (a : A)
  | Throw (e : error).
Arguments Return {A} a.
Arguments Throw {A} e.

(** Computations of the module: a world in, a result and a world out. *)
Definition M (A : Type) : Type := world -> result A * world.

Definition ret {A} (a : A) : M A := fun w => (Return a, w).

Definition throw {A} (e : error) : M A := fun w => (Throw e, w).

Definition bind {A B} (c : M A) (k : A -> M B) : M B :=
  fun w =>
    match c w with
    | (Return a, w') => k a w'
    | (Throw e, w') => (Throw e, w')
    end.

Notation "'let!' x ':=' c 'in' k" := (bind c (fun x => k))
  (at level 10, x name, c at level 100, k at level 200).

Definition lift {A} (r : result A) : M A := fun w => (r, w).

Definition emit (e : event) : M unit :=
  fun w => (Return tt,
            {| accessKey := accessKey w; secretKey := secretKey w;
               heap := heap w; now := now w; reply := reply w;
               calls := e :: calls w |}).

Definition set_heap (h : gmap loc object) (w : world) : world :=
  {| accessKey := accessKey w; secretKey := secretKey w;
     heap := h; now := now w; reply := reply w; calls := calls w |}.

(** The properties of the object behind [l]. *)
Definition props (l : loc) (w : world) : object := default ∅ (heap w !! l).

(** [{}]: a fresh object. *)
Definition new_object : M loc :=
  fun w => let l := fresh (dom (heap w)) in
           (Return l, set_heap (<[l := ∅]> (heap w)) w).

(** An update in place of the object behind [l]. *)
Definition update (l : loc) (f : object -> object) : M unit :=
  fun w => (Return tt,
            set_heap (partial_alter (fun o => Some (f (default ∅ o))) l (heap w)) w).

(** [o[k] = v] *)
Definition set_prop (l : loc) (k : jsstring) (v : value) : M unit :=
  update l (insert k v).

(** [delete o[k]] *)
Definition delete_prop (l : loc) (k : jsstring) : M unit :=
  update l (delete k).

(** [Object.keys(o)], in some order. *)
Definition Object_keys (o : object) : list jsstring := (map_to_list o).*1.

Definition get_props (l : loc) : M object := fun w => (Return (props l w), w).

(** ** Host functions *)

(** A Java [byte] as the script sees it, and back. *)
Definition signed (b : N) : Z := if b <? 128 then Z.of_N b else (Z.of_N b - 256)%Z.
Definition octet (z : Z) : N := Z.to_N (z mod 256).

(** The octets the host takes a string for: UTF-8, an unpaired surrogate
    becoming [?] as in Java's encoder. *)
Definition utf8 (s : jsstring) : list N :=
  flat_map (fun cp => match cp with Some c => utf8_octets c | None => [63] end)
           (CodePoints s).

(** [Utilities.newBlob(v).getBytes()].  Building and reading the blob is
    not recorded in [calls], which lists the date, digest, HMAC, log and
    fetch calls. *)
Definition getBytes (s : jsstring) : list Z := map signed (utf8 s).

(** [Utilities.formatDate(new Date(), "GMT", "yyyyMMdd'T'HHmmss'Z'")] *)
Definition formatDate_now : M jsstring :=
  let! _ := emit EFormatDate in fun w => (Return (now w), w).

(** [Utilities.computeDigest(Utilities.DigestAlgorithm.SHA_256, s)] *)
Definition computeDigest (s : jsstring) : M (list Z) :=
  let! _ := emit (EDigest s) in
  ret (map signed (SHA256.sha256 (utf8 s))).

(** [Utilities.computeHmacSha256Signature(value, key)] on byte arrays;
    on two strings it signs their octets. *)
Definition computeHmacSha256Signature (value key : list Z) : M (list Z) :=
  let! _ := emit (EHmac value key) in
  ret (map signed (SHA256.hmac_sha256 (map octet key) (map octet value))).

Definition Logger_log (e : event) : M unit := emit e.

(** [UrlFetchApp.fetchAll([request])[0]] *)
Definition fetchAll1 (request : requestObject) : M jsstring :=
  let! _ := emit (EFetch request) in fun w => (Return (reply w), w).

(** ** The module [AWS] *)

Definition AWS_DEFAULT_BUCKET : value := VStr (js "DefaultS3Bucket").
Definition AWS_DEFAULT_REGION : value := VStr (js "us-east-1").

(** One turn of the loop of [BytesToHex]; the elements of a byte array
    are integers, on which [parseInt] is the identity. *)
Definition BytesToHex_step (b : Z) : jsstring :=
  let c := if (b <? 0)%Z then toStringRadix 16 (256 + b) else toStringRadix 16 b in
  if (length c =? 1)%nat then js "0" ++ c else c.

Definition BytesToHex (bytes : list Z) : jsstring :=
  join [] (map BytesToHex_step bytes).

Definition Sha256Hash (value : jsstring) : M jsstring :=
  let! d := computeDigest value in
  ret (BytesToHex d).

Definition Sha256Hmac (value : jsstring) (key : list Z) : M jsstring :=
  let! sig := computeHmacSha256Signature (getBytes value) key in
  ret (BytesToHex sig).

Definition GetSignatureKey (key : value) (dateStamp : jsstring)
    (regionName serviceName : value) : M (list Z) :=
  let! kDate := computeHmacSha256Signature (getBytes dateStamp)
                  (getBytes (js "AWS4" ++ ToString key)) in
  let! kRegion := computeHmacSha256Signature (getBytes (ToString regionName)) kDate in
  let! kService := computeHmacSha256Signature (getBytes (ToString serviceName)) kRegion in
  let! kSigning := computeHmacSha256Signature (getBytes (js "aws4_request")) kService in
  ret kSigning.

Definition Init (access_key secret_key : value) : M unit :=
  fun w => (Return tt,
            {| accessKey := access_key; secretKey := secret_key;
               heap := heap w; now := now w; reply := reply w;
               calls := calls w |}).

(** The characters [encodeURIComponent] leaves as they are. *)
Definition uriUnescaped (c : N) : bool :=
  ((65 <=? c) && (c <=? 90)) || ((97 <=? c) && (c <=? 122))
  || ((48 <=? c) && (c <=? 57))
  || bool_decide (c ∈ js "-_.!~*'()").

Definition upper_digit (d : N) : N := if d <? 10 then 48 + d else 55 + d.

Definition percent (o : N) : jsstring :=
  [37; upper_digit (o / 16); upper_digit (o mod 16)].

(** [encodeURIComponent]: a [URIError] on an unpaired surrogate. *)
Fixpoint encode_points (cps : list (option N)) : result jsstring :=
  match cps with
  | [] => Return []
  | None :: _ => Throw URIError
  | Some c :: rest =>
      match encode_points rest with
      | Return r =>
          Return ((if uriUnescaped c then [c] else flat_map percent (utf8_octets c)) ++ r)
      | Throw e => Throw e
      end
  end.

Definition encodeURIComponent (s : jsstring) : result jsstring :=
  encode_points (CodePoints s).

(** [/[!'()*]/] *)
Definition aws_reserved (c : N) : bool := bool_decide (c ∈ js "!'()*").

Definition UrlEncode (str : value) : result jsstring :=
  match encodeURIComponent (ToString str) with
  | Return s =>
      Return (flat_map (fun c => if aws_reserved c
                                 then js "%" ++ toStringRadix 16 (Z.of_N c)
                                 else [c]) s)
  | Throw e => Throw e
  end.

Definition GetHost (service region bucket : value) : jsstring :=
  join (js ".")
    (map ToString
       (List.filter truthy
          [ (if loose_eq_str service (js "s3") then bucket else VUndefined);
            service;
            (if loose_eq_str service (js "s3") then VUndefined else region);
            VStr (js "amazonaws.com") ])).

(** [function(a,b) { return a<b?-1:1; }] *)
Definition compare_keys (a b : jsstring) : Z := if str_lt a b then (-1)%Z else 1%Z.

(** [Array.prototype.sort(compare_keys)] on the distinct names of an
    object: [compare_keys] orders them totally, so the sorted array is
    the one ascending arrangement, built here by insertion. *)
Fixpoint sort_insert (k : jsstring) (l : list jsstring) : list jsstring :=
  match l with
  | [] => [k]
  | x :: rest =>
      if (compare_keys k x <? 0)%Z then k :: l else x :: sort_insert k rest
  end.

Definition sort_keys (l : list jsstring) : list jsstring :=
  foldr sort_insert [] l.

Definition nl : jsstring := [10].

(** [o[k]] *)
Definition get_prop (o : object) (k : jsstring) : value := default VUndefined (o !! k).

(** Lines 124-129 of [BuildRequest]: the query of a request that is not
    a POST. *)
Definition BuildRequest_query (action : value) (params : option object)
    : result jsstring :=
  let query := js "Action=" ++ ToString action in
  match params with
  | Some ps =>
      fold_left
        (fun acc name =>
           match acc with
           | Return query =>
               match UrlEncode (get_prop ps name) with
               | Return enc => Return (query ++ js "&" ++ name ++ js "=" ++ enc)
               | Throw e => Throw e
               end
           | Throw e => Throw e
           end)
        (sort_keys (Object_keys ps)) (Return query)
  | None => Return query
  end.

(** Lines 138-144 of [BuildRequest]: [canonHeaders] and [signedHeaders]
    of the header object. *)
Definition BuildRequest_canon (hs : object) : jsstring * jsstring :=
  let '(canonHeaders, signedHeaders) :=
    fold_left
      (fun '(canonHeaders, signedHeaders) h =>
         (canonHeaders ++ toLowerCase h ++ js ":" ++ ToString (get_prop hs h) ++ nl,
          signedHeaders ++ toLowerCase h ++ js ";"))
      (sort_keys (Object_keys hs)) ([], []) in
  (canonHeaders, substring0 (length signedHeaders - 1) signedHeaders).

Definition BuildRequest (service action : value) (params : option object)
    (region method payload : value) (headers : option loc)
    (uri bucket : value) : M requestObject :=
  if negb (truthy service) then throw (Error (js "Missing AWS API Service")) else
  if negb (truthy action) then throw (Error (js "Missing AWS API Action")) else
  let region := or_default region AWS_DEFAULT_REGION in
  let method := or_default method (VStr (js "GET")) in
  let payload := or_default payload (VStr []) in
  let uri := or_default uri (VStr (js "/")) in
  let bucket := or_default bucket AWS_DEFAULT_BUCKET in
  let payload := if is_string payload then payload else JSON_stringify payload in
  let! dateTimeStamp := formatDate_now in
  let dateStamp := substring0 8 dateTimeStamp in
  (* the host takes its String argument as text *)
  let! hashedPayload := Sha256Hash (ToString payload) in
  let host := GetHost service region bucket in
  let! headers := match headers with Some l => ret l | None => new_object end in
  (* method.toLowerCase is a function on strings only *)
  let! method := match method with VStr m => ret m | _ => throw TypeError end in
  let! url_query :=
    if str_eqb (toLowerCase method) (js "post")
    then ret (js "https://" ++ host ++ ToString uri, [])
    else
      let! query := lift (BuildRequest_query action params) in
      ret (js "https://" ++ host ++ ToString uri ++ js "?" ++ query, query) in
  let url := fst url_query in
  let query := snd url_query in
  let! _ := set_prop headers (js "Host") (VStr host) in
  let! _ := set_prop headers (js "X-Amz-Date") (VStr dateTimeStamp) in
  let! _ := set_prop headers (js "X-Amz-Target") action in
  let! _ := set_prop headers (js "X-Amz-Content-SHA256") (VStr hashedPayload) in
  let! hs := get_props headers in
  let canonHeaders := fst (BuildRequest_canon hs) in
  let signedHeaders := snd (BuildRequest_canon hs) in
  let CanonicalString :=
    method ++ nl ++ ToString uri ++ nl ++ query ++ nl ++ canonHeaders ++ nl
           ++ signedHeaders ++ nl ++ hashedPayload in
  let! canonHash := Sha256Hash CanonicalString in
  let algorithm := js "AWS4-HMAC-SHA256" in
  let scope := dateStamp ++ js "/" ++ ToString region ++ js "/" ++ ToString service
                         ++ js "/aws4_request" in
  let StringToSign := algorithm ++ nl ++ dateTimeStamp ++ nl ++ scope ++ nl ++ canonHash in
  let! secret := (fun w => (Return (secretKey w), w)) in
  let! key := GetSignatureKey secret dateStamp region service in
  let! signature := Sha256Hmac StringToSign key in
  let! access := (fun w => (Return (accessKey w), w)) in
  let authHeader :=
    algorithm ++ js " Credential=" ++ ToString access ++ js "/" ++ scope
              ++ js ", SignedHeaders=" ++ signedHeaders
              ++ js ",Signature=" ++ signature in
  let! _ := set_prop headers (js "Authorization") (VStr authHeader) in
  let! _ := delete_prop headers (js "Host") in
  let requestObject :=
    {| url := url; method := method; headers := headers;
       muteHttpExceptions := true; payload := payload |} in
  let! _ := Logger_log (ELog (js "Generated AWS API request")) in
  let! _ := Logger_log (ELogRequest requestObject) in
  ret requestObject.

Definition SendRequest (request : requestObject) : M jsstring :=
  fetchAll1 request.

Definition BuildAndSendRequest (service action : value) (params : option object)
    (region method payload : value) (headers : option loc)
    (uri bucket : value) : M jsstring :=
  let! request := BuildRequest service action params region method payload
                               headers uri bucket in
  SendRequest request.

(** [TestAWS] of the source. *)
Definition TestAWS : M unit :=
  let! _ := Logger_log (ELog (js "Testing AWS getSignatureKey()")) in
  let key := VStr (js "wJalrXUtnFEMI/K7MDENG+bPxRfiCYEXAMPLEKEY") in
  let dateStamp := js "20120215" in
  let regionName := VStr (js "us-east-1") in
  let serviceName := VStr (js "iam") in
  let expectedSigKey :=
    js "f4780e2d9f65fa895f9c67b32ce1baf0b0d8a43505a000a1a9e090d414db404d" in
  let! k := GetSignatureKey key dateStamp regionName serviceName in
  let sigKey := BytesToHex k in
  let! _ := Logger_log (ELog (js "Expect: " ++ expectedSigKey)) in
  let! _ := Logger_log (ELog (js "Actual: " ++ sigKey)) in
  if negb (str_eqb sigKey expectedSigKey)
  then throw (Error (js "AWS signature key test failed"))
  else ret tt.

(** ** Vocabulary of the statements, worlds and inputs of the examples *)

(** A world in which [Init] was never called. *)
Definition fresh_world : world :=
  {| accessKey := VUndefined; secretKey := VUndefined; heap := ∅;
     now := js "20210704T120000Z"; reply := []; calls := [] |}.

(** The value a run leaves, and the world it leaves. *)
Definition value_of {A} (c : M A) (w : world) : result A := fst (c w).
Definition world_of {A} (c : M A) (w : world) : world := snd (c w).

(** The two lower-case hex characters of an unsigned byte, as the
    specification words them. *)
Definition lower_hex_pair (n : Z) : jsstring :=
  [digit_unit (Z.to_N (n / 16)); digit_unit (Z.to_N (n mod 16))].

(** A signed byte in its unsigned form. *)
Definition unsigned_byte (b : Z) : Z := if (b <? 0)%Z then (b + 256)%Z else b.

Definition is_lower_hex (c : N) : Prop := c ∈ js "0123456789abcdef".

Definition byte_range : list Z :=
  map (fun k => (Z.of_nat k - 128)%Z) (seq 0 384).

(** The four-stage chain of section 4.2 on octets: each stage's raw
    output is the key of the next. *)
Definition signing_chain (secret dateStamp region service : jsstring) : list N :=
  let kDate := SHA256.hmac_sha256 (utf8 (js "AWS4" ++ secret)) (utf8 dateStamp) in
  let kRegion := SHA256.hmac_sha256 kDate (utf8 region) in
  let kService := SHA256.hmac_sha256 kRegion (utf8 service) in
  SHA256.hmac_sha256 kService (utf8 (js "aws4_request")).

(** The caller's headers of the claim, [{"Z":1,"a":2,"M":3}]. *)
Definition caller_headers : object :=
  <[js "Z" := VNum 1]> (<[js "a" := VNum 2]> (<[js "M" := VNum 3]> ∅)).

(** A world after [Init], with the caller's headers behind reference 1. *)
Definition caller_world : world :=
  world_of (Init (VStr (js "AKIDEXAMPLE"))
                 (VStr (js "wJalrXUtnFEMI/K7MDENG+bPxRfiCYEXAMPLEKEY")))
           (set_heap {[ 1%positive := caller_headers ]} fresh_world).

(** The body [BuildRequest] signs and returns. *)
Definition body_of (payload : value) : value :=
  let p := or_default payload (VStr []) in
  if is_string p then p else JSON_stringify p.

(** The header object [BuildRequest] works on: the caller's, or a fresh one. *)
Definition header_ref (headers : option loc) (w : world) : loc :=
  match headers with Some l => l | None => fresh (dom (heap w)) end.

Definition header_base (headers : option loc) (w : world) : object :=
  match headers with Some l => props l w | None => ∅ end.

(** The errors of the two guards at the head of [BuildRequest]. *)
Definition MissingParameter (e : error) : Prop :=
  e = Error (js "Missing AWS API Service")
  \/ e = Error (js "Missing AWS API Action").

(** A world after [Init]. *)
Definition init_world : world :=
  world_of (Init (VStr (js "AKIDEXAMPLE"))
                 (VStr (js "wJalrXUtnFEMI/K7MDENG+bPxRfiCYEXAMPLEKEY")))
           fresh_world.






Definition names_lt (a b : jsstring) : Prop := str_lt a b = true.

(** The URL-encoded text of a parameter value. *)
Definition encoded (v : value) : jsstring :=
  match UrlEncode v with Return s => s | Throw _ => [] end.

(** The query as the specification words it: "Action=" and the action,
    then "&name=value" for each name in turn. *)
Definition query_text (action : value) (ps : object) (names : list jsstring)
    : jsstring :=
  js "Action=" ++ ToString action
     ++ flat_map (fun name => js "&" ++ name ++ js "=" ++ encoded (get_prop ps name))
                 names.

(** The parameters of the usage note of the source. *)
Definition usage_params : object := {[ js "Version" := VStr (js "2015-10-01") ]}.

(** ** Vocabulary of the further properties *)

(** Strings whose elements are code units of sixteen bits. *)
Definition code_units (s : jsstring) : Prop := Forall (fun c => c < 65536) s.

Definition alnum (c : N) : bool :=
  ((65 <=? c) && (c <=? 90)) || ((97 <=? c) && (c <=? 122))
  || ((48 <=? c) && (c <=? 57)).

(** The characters a query value may show after [UrlEncode]: letters,
    digits, [- _ . ~] and the percent sign of an escape. *)
Definition url_safe (c : N) : bool :=
  alnum c || bool_decide (c ∈ js "-_.~%").

(** The characters [UrlEncode] leaves as they are. *)
Definition aws_unreserved (c : N) : bool :=
  alnum c || bool_decide (c ∈ js "-_.~").

(** No unpaired surrogate. *)
Definition well_formed (s : jsstring) : Prop :=
  Forall (fun cp : option N => is_Some cp) (CodePoints s).



(** The four names [BuildRequest] sets before it signs. *)
Definition mandatory_headers : list jsstring :=
  [ js "Host"; js "X-Amz-Date"; js "X-Amz-Target"; js "X-Amz-Content-SHA256" ].


(** ** The BigQuery helpers of GasBQ.js *)

(** A job reference object: [location] may be absent. *)
Record JobReference : Type := {
  projectId : jsstring;
  location : option jsstring;
  jobId : jsstring
}.

(** The argument of [parseJobRef]: a string or a job reference object. *)
Inductive jobArg : Type :=
  | JobIdString (s : jsstring)
  | JobRefObject (r : JobReference).

(** The text before and after the first [c] of a string. *)
Fixpoint split_at (c : N) (s : jsstring) : option (jsstring * jsstring) :=
  match s with
  | [] => None
  | x :: rest =>
      if x =? c then Some ([], rest)
      else match split_at c rest with
           | Some (a, b) => Some (x :: a, b)
           | None => None
           end
  end.

(** What [.] of a regular expression does not match. *)
Definition line_terminator (c : N) : bool :=
  (c =? 10) || (c =? 13) || (c =? 8232) || (c =? 8233).

Definition is_empty (s : jsstring) : bool :=
  match s with [] => true | _ => false end.

(** [jobId.match] on the pattern of [parseJobRef], anchored at both
    ends: a group of one or more characters other than a colon, a colon,
    a group of one or more characters other than a dot, a dot, and a
    group of any characters [.] matches.  The first group runs to the
    first colon, the second from there to the next dot, the third to the
    end of the string. *)
Definition match_full_id (s : jsstring)
    : option (jsstring * jsstring * jsstring) :=
  match split_at 58 s with
  | Some (p, rest) =>
      if is_empty p then None
      else match split_at 46 rest with
           | Some (l, j) =>
               if is_empty l then None
               else if forallb (fun c => negb (line_terminator c)) j
                    then Some (p, l, j)
                    else None
           | None => None
           end
  | None => None
  end.

(** [BQ_PROJECT_ID] is a constant of the script project, defined outside
    this file; it is a parameter here. *)
Definition parseJobRef (BQ_PROJECT_ID : jsstring) (jobId : jobArg)
    : JobReference :=
  match jobId with
  | JobRefObject r => r
  | JobIdString s =>
      let jobRef := {| projectId := BQ_PROJECT_ID; location := None; jobId := s |} in
      match match_full_id s with
      | Some (p, l, j) => {| projectId := p; location := Some l; jobId := j |}
      | None => jobRef
      end
  end.

(** A table reference and the parts of a job resource the helpers read:
    [jobReference.jobId], [status.state],
    [configuration.query.destinationTable] and
    [configuration.extract.destinationUris], the last two absent in jobs
    of the other kind. *)
Record TableReference : Type := {
  datasetId : jsstring;
  tableProjectId : jsstring;
  tableId : jsstring
}.

Record Job : Type := {
  job_jobId : jsstring;
  state : jsstring;
  destinationTable : option TableReference;
  destinationUris : option (list jsstring)
}.

(** [getJob]; [Jobs_get] stands for the host's [BigQuery.Jobs.get], its
    last argument for the optional [{location: ...}]. *)
Definition getJob (BQ_PROJECT_ID : jsstring)
    (Jobs_get : jsstring -> jsstring -> option jsstring -> Job)
    (jobId : jobArg) : Job :=
  match parseJobRef BQ_PROJECT_ID jobId with
  | {| projectId := p; location := l; jobId := j |} =>
      match l with
      | Some (_ :: _) => Jobs_get p j l
      | _ => Jobs_get p j None          (* !jobRef.location *)
      end
  end.

(** The request [createExport] inserts. *)
Record ExtractRequest : Type := {
  jobType : jsstring;
  extract_destinationUris : list jsstring;
  sourceTable : TableReference
}.

(** [createExport]; [GS_EXPORT_BUCKET] is a constant defined outside
    this file and [Jobs_insert] the host's [BigQuery.Jobs.insert].  A job
    without a query destination table stops it with a [TypeError]. *)
Definition createExport (BQ_PROJECT_ID GS_EXPORT_BUCKET : jsstring)
    (Jobs_get : jsstring -> jsstring -> option jsstring -> Job)
    (Jobs_insert : ExtractRequest -> jsstring -> Job)
    (jobId : jobArg) : result Job :=
  let job := getJob BQ_PROJECT_ID Jobs_get jobId in
  match destinationTable job with
  | None => Throw TypeError
  | Some cache =>
      let request :=
        {| jobType := js "extract";
           extract_destinationUris :=
             [ js "gs://" ++ GS_EXPORT_BUCKET ++ js "/export/"
                  ++ job_jobId job ++ js "__*.csv" ];
           sourceTable :=
             {| datasetId := datasetId cache;
                tableProjectId := tableProjectId cache;
                tableId := tableId cache |} |} in
      Return (Jobs_insert request BQ_PROJECT_ID)
  end.

Fixpoint strip_prefix (p s : jsstring) : option jsstring :=
  match p, s with
  | [], _ => Some s
  | x :: p', y :: s' => if x =? y then strip_prefix p' s' else None
  | _ :: _, [] => None
  end.

(** The longest prefix without [c]. *)
Fixpoint take_until (c : N) (s : jsstring) : jsstring :=
  match s with
  | [] => []
  | x :: rest => if x =? c then [] else x :: take_until c rest
  end.

(** [destinationUri.match] on the pattern of [getDownloadLinks],
    anchored at the start: "gs://", a group of one or more characters
    other than a slash, a slash, and a group of one or more characters
    other than an asterisk.  The bucket runs to the first slash and the
    prefix from there to the first asterisk or the end. *)
Definition match_gs_uri (uri : jsstring) : option (jsstring * jsstring) :=
  match strip_prefix (js "gs://") uri with
  | Some rest =>
      match split_at 47 rest with
      | Some (bucket, tail) =>
          if is_empty bucket || is_empty (take_until 42 tail) then None
          else Some (bucket, take_until 42 tail)
      | None => None
      end
  | None => None
  end.

(** The body of the loop of [getDownloadLinks] for one destination URI.
    [listing apiUrl] stands for the names of
    [JSON.parse(UrlFetchApp.fetch(apiUrl, ...).getContentText()).items],
    none when there are no items. *)
Definition destination_links (listing : jsstring -> list jsstring)
    (destinationUri : jsstring) : result (list jsstring) :=
  match match_gs_uri destinationUri with
  | None => Throw (Error (js "Unrecognized URI: " ++ destinationUri))
  | Some (bucket, prefix) =>
      if negb (existsb (N.eqb 42) destinationUri)   (* indexOf('*') < 0 *)
      then Return [js "https://storage.cloud.google.com/" ++ bucket
                      ++ js "/" ++ prefix]
      else
        match encodeURIComponent bucket with
        | Throw e => Throw e
        | Return b =>
            match encodeURIComponent prefix with
            | Throw e => Throw e
            | Return p =>
                let apiUrl :=
                  js "https://storage.googleapis.com/storage/v1/b/" ++ b
                     ++ js "/o?prefix=" ++ p in
                Return (map (fun name => js "https://storage.cloud.google.com/"
                                            ++ bucket ++ js "/" ++ name)
                            (listing apiUrl))
            end
        end
  end.

(** [getDownloadLinks]: [None] is the [null] of a job still running. *)
Definition getDownloadLinks (BQ_PROJECT_ID : jsstring)
    (Jobs_get : jsstring -> jsstring -> option jsstring -> Job)
    (listing : jsstring -> list jsstring)
    (jobId : jobArg) : result (option (list jsstring)) :=
  let job := getJob BQ_PROJECT_ID Jobs_get jobId in
  if negb (str_eqb (state job) (js "DONE")) then Return None
  else
    match destinationUris job with
    | None => Throw TypeError
    | Some uris =>
        match
          fold_left
            (fun acc destinationUri =>
               match acc with
               | Return urls =>
                   match destination_links listing destinationUri with
                   | Return links => Return (urls ++ links)
                   | Throw e => Throw e
                   end
               | Throw e => Throw e
               end)
            uris (Return [])
        with
        | Return urls => Return (Some urls)
        | Throw e => Throw e
        end
    end.

(** A destination URI that names one object: gs://bucket/path without
    an asterisk. *)
Definition object_uri (uri : jsstring) : Prop :=
  exists bucket path,
    uri = js "gs://" ++ bucket ++ js "/" ++ path
    /\ bucket <> [] /\ (47 ∉ bucket) /\ (42 ∉ bucket)
    /\ path <> [] /\ (42 ∉ path).

(** A finished extract job of the examples and a host that answers every
    [Jobs.get] with it. *)
Definition done_job (uris : list jsstring) : Job :=
  {| job_jobId := js "job_1"; state := js "DONE";
     destinationTable := None; destinationUris := Some uris |}.

Definition host_with (job : Job) : jsstring -> jsstring -> option jsstring -> Job :=
  fun _ _ _ => job.

(** A finished query job of the examples. *)
Definition query_job : Job :=
  {| job_jobId := js "job_1"; state := js "DONE";
     destinationTable :=
       Some {| datasetId := js "_cache"; tableProjectId := js "my-project";
               tableId := js "anon1" |};
     destinationUris := None |}.

Definition hex_digit (c : N) : bool :=
  ((48 <=? c) && (c <=? 57)) || ((65 <=? c) && (c <=? 70))
  || ((97 <=? c) && (c <=? 102)).

(** One unit of an encoded value: a character left as it is, or a
    percent sign and two hex digits. *)
Definition url_token (t : jsstring) : Prop :=
  (exists c, t = [c] /\ aws_unreserved c = true)
  \/ (exists h l, t = [37; h; l] /\ hex_digit h = true /\ hex_digit l = true).

(** Strings of ASCII characters, on which [toLowerCase] is the
    lower-casing of the letters A to Z. *)
Definition ascii_string (s : jsstring) : Prop := Forall (fun c => c < 128) s.

(** The replacement [UrlEncode] applies after [encodeURIComponent]. *)
Definition escape_reserved (c : N) : jsstring :=
  if aws_reserved c then js "%" ++ toStringRadix 16 (Z.of_N c) else [c].

Definition pre_token (t : jsstring) : Prop :=
  (exists c, t = [c] /\ uriUnescaped c = true)
  \/ (exists o, o < 256 /\ t = percent o).

(** * Properties *)

(** ** The hex encoding of bytes *)

Lemma join_empty_concat (l : list jsstring) : join [] l = concat l.
Proof.
  induction l as [|x [|y l] IH]; [reflexivity | | ].
  - cbn. by rewrite app_nil_r.
  - change (join [] (x :: y :: l)) with (x ++ [] ++ join [] (y :: l)).
    rewrite IH. reflexivity.
Qed.

Lemma byte_range_complete (b : Z) :
  (-128 <= b <= 255)%Z -> In b byte_range.
Proof.
  intros Hb. unfold byte_range. apply in_map_iff.
  exists (Z.to_nat (b + 128)). split; [lia|].
  apply in_seq. lia.
Qed.

Lemma BytesToHex_step_pair (b : Z) :
  (-128 <= b <= 255)%Z ->
  BytesToHex_step b = lower_hex_pair (unsigned_byte b).
Proof.
  intros Hb.
  assert (Hall : forallb (fun b => bool_decide
            (BytesToHex_step b = lower_hex_pair (unsigned_byte b))) byte_range = true)
    by (vm_compute; reflexivity).
  rewrite forallb_forall in Hall.
  specialize (Hall b (byte_range_complete b Hb)).
  by apply bool_decide_eq_true in Hall.
Qed.

Lemma lower_hex_pair_digits (b : Z) :
  (-128 <= b <= 255)%Z ->
  Forall is_lower_hex (lower_hex_pair (unsigned_byte b)).
Proof.
  intros Hb.
  assert (Hall : forallb (fun b => bool_decide
            (Forall is_lower_hex (lower_hex_pair (unsigned_byte b)))) byte_range = true)
    by (vm_compute; reflexivity).
  rewrite forallb_forall in Hall.
  specialize (Hall b (byte_range_complete b Hb)).
  by apply bool_decide_eq_true in Hall.
Qed.

(** C5. On an array of bytes, signed ([-128..-1]) or unsigned
    ([0..255]), [BytesToHex] writes for each element exactly the two
    lower-case hex characters of its unsigned form (a negative element
    is taken plus 256) and concatenates them: 10 gives "0a", 255 gives
    "ff" and -1 gives "ff". *)
Theorem BytesToHex_two_lower_hex (bytes : list Z) :
  Forall (fun b => (-128 <= b <= 255)%Z) bytes ->
  BytesToHex bytes = flat_map (fun b => lower_hex_pair (unsigned_byte b)) bytes
  /\ length (BytesToHex bytes) = (2 * length bytes)%nat
  /\ Forall is_lower_hex (BytesToHex bytes)
  /\ BytesToHex [10%Z] = js "0a"
  /\ BytesToHex [255%Z] = js "ff"
  /\ BytesToHex [(-1)%Z] = js "ff".
Proof.
  intros Hall.
  assert (Heq : BytesToHex bytes
                = flat_map (fun b => lower_hex_pair (unsigned_byte b)) bytes).
  { unfold BytesToHex. rewrite join_empty_concat.
    induction Hall as [|b l Hb _ IH]; [reflexivity|].
    cbn [map concat flat_map]. rewrite IH, BytesToHex_step_pair by done.
    reflexivity. }
  split; [exact Heq|]. rewrite Heq.
  split; [|split; [|by vm_compute]].
  - clear Heq Hall. induction bytes as [|b l IH]; [reflexivity|].
    cbn [flat_map]. rewrite length_app, IH. cbn. lia.
  - clear Heq. induction Hall as [|b l Hb _ IH]; [constructor|].
    cbn [flat_map]. apply Forall_app. split; [|exact IH].
    by apply lower_hex_pair_digits.
Qed.

Lemma BytesToHex_two_lower_hex_witness :
  BytesToHex [(-128)%Z; 0%Z; 15%Z; 127%Z]
  = flat_map (fun b => lower_hex_pair (unsigned_byte b)) [(-128)%Z; 0%Z; 15%Z; 127%Z].
Proof.
  apply (BytesToHex_two_lower_hex [(-128)%Z; 0%Z; 15%Z; 127%Z]).
  repeat constructor; lia.
Defined.

(** ** The signing key *)

(** C1. For the secret key, date stamp "20120215", region "us-east-1"
    and service "iam" of [TestAWS], [GetSignatureKey] returns, in every
    world, the bytes of the four-stage HMAC-SHA256 chain, and
    [BytesToHex] of them is
    "f4780e2d9f65fa895f9c67b32ce1baf0b0d8a43505a000a1a9e090d414db404d". *)
Theorem GetSignatureKey_known_vector (w : world) :
  let key := js "wJalrXUtnFEMI/K7MDENG+bPxRfiCYEXAMPLEKEY" in
  let kSigning :=
    map signed (signing_chain key (js "20120215") (js "us-east-1") (js "iam")) in
  value_of (GetSignatureKey (VStr key) (js "20120215")
              (VStr (js "us-east-1")) (VStr (js "iam"))) w
  = Return kSigning
  /\ BytesToHex kSigning
     = js "f4780e2d9f65fa895f9c67b32ce1baf0b0d8a43505a000a1a9e090d414db404d".
Proof.
  split; vm_compute; reflexivity.
Qed.

(** [TestAWS] passes in every world. *)
Lemma TestAWS_passes (w : world) : value_of TestAWS w = Return tt.
Proof. vm_compute. reflexivity. Qed.

(** ** The host name *)

(** C8. For non-empty strings [service], [region] and [bucket],
    [GetHost] gives bucket.s3.amazonaws.com when the service is "s3"
    (no region) and service.region.amazonaws.com otherwise. *)
Theorem GetHost_cases (service region bucket : jsstring) :
  service <> [] -> region <> [] -> bucket <> [] ->
  GetHost (VStr service) (VStr region) (VStr bucket)
  = (if str_eqb service (js "s3")
     then bucket ++ js ".s3.amazonaws.com"
     else service ++ js "." ++ region ++ js ".amazonaws.com")
  /\ GetHost (VStr (js "s3")) (VStr region) (VStr (js "mybucket"))
     = js "mybucket.s3.amazonaws.com"
  /\ GetHost (VStr (js "ec2")) (VStr (js "us-west-2")) (VStr bucket)
     = js "ec2.us-west-2.amazonaws.com".
Proof.
  intros Hs Hr Hb.
  assert (Ht : forall s : jsstring, s <> [] -> truthy (VStr s) = true).
  { intros s H. cbn. unfold str_eqb. by rewrite bool_decide_eq_false_2. }
  split; [|split; vm_compute; reflexivity].
  unfold GetHost. cbn [loose_eq_str].
  destruct (str_eqb service (js "s3")) eqn:E; cbn [List.filter];
    change (truthy VUndefined) with false;
    change (truthy (VStr (js "amazonaws.com"))) with true; cbv iota.
  - rewrite (Ht bucket Hb), (Ht service Hs).
    apply bool_decide_eq_true in E. subst service.
    cbn [map ToString join]. reflexivity.
  - rewrite (Ht service Hs), (Ht region Hr).
    cbn [map ToString join]. reflexivity.
Qed.

Lemma GetHost_cases_witness :
  GetHost (VStr (js "sqs")) (VStr (js "eu-west-1")) (VStr (js "b"))
  = js "sqs.eu-west-1.amazonaws.com".
Proof.
  apply (GetHost_cases (js "sqs") (js "eu-west-1") (js "b")); discriminate.
Defined.

(** ** URL encoding *)

Lemma aws_reserved_cases (c : N) :
  aws_reserved c = true -> c = 33 \/ c = 39 \/ c = 40 \/ c = 41 \/ c = 42.
Proof.
  unfold aws_reserved. intros H. apply bool_decide_eq_true in H.
  change (js "!'()*") with [33; 39; 40; 41; 42] in H.
  rewrite !elem_of_cons, elem_of_nil in H. tauto.
Qed.

(** None of [! ' ( ) *] is left in what [UrlEncode] returns. *)
Lemma UrlEncode_no_reserved (v : value) (out : jsstring) :
  UrlEncode v = Return out -> Forall (fun c => aws_reserved c = false) out.
Proof.
  unfold UrlEncode. destruct (encodeURIComponent (ToString v)) as [s|]; [|done].
  intros [= <-]. induction s as [|c s IH]; [constructor|].
  cbn [flat_map]. apply Forall_app. split; [|exact IH].
  destruct (aws_reserved c) eqn:E.
  - apply aws_reserved_cases in E.
    destruct E as [->|[->|[->|[->| ->]]]]; vm_compute; repeat constructor.
  - by constructor.
Qed.

(** C3, at the input of the claim: the five characters are escaped, the
    hex digit of [*] in lower case ("%2a"), beside the upper-case
    escapes of [encodeURIComponent] ("%2F"). *)
Theorem UrlEncode_reserved_lower_hex :
  UrlEncode (VStr (js "a!b'c(d)e*f")) = Return (js "a%21b%27c%28d%29e%2af")
  /\ UrlEncode (VStr (js "*")) = Return (js "%2a")
  /\ UrlEncode (VStr (js "/*")) = Return (js "%2F%2a").
Proof. repeat split; vm_compute; reflexivity. Qed.

(** ** Header order *)

(** C2, at the input of the claim: with the headers [{"Z":1,"a":2,"M":3}]
    the signed-header list of [BuildRequest] orders the names by code
    unit before lower-casing them, the caller's three as m, z, a. *)
Theorem BuildRequest_signed_headers_order :
  let run := BuildRequest (VStr (js "ec2")) (VStr (js "DescribeInstances")) None
               VUndefined VUndefined VUndefined (Some 1%positive)
               VUndefined VUndefined in
  get_prop (props 1%positive (world_of run caller_world)) (js "Authorization")
  = VStr (js "AWS4-HMAC-SHA256 Credential=AKIDEXAMPLE/20210704/us-east-1/ec2/aws4_request, SignedHeaders=host;m;x-amz-content-sha256;x-amz-date;x-amz-target;z;a,Signature=2e87a8d966a26530ad19544f1fd3ae5110eba57fc7f87b53bd2de555d9e8d3f9")
  /\ snd (BuildRequest_canon
            (<[js "X-Amz-Content-SHA256" := VStr []]>
               (<[js "X-Amz-Target" := VStr []]>
                  (<[js "X-Amz-Date" := VStr []]>
                     (<[js "Host" := VStr []]> caller_headers)))))
     = js "host;m;x-amz-content-sha256;x-amz-date;x-amz-target;z;a".
Proof. split; vm_compute; reflexivity. Qed.

(** ** Running [BuildRequest] *)

Lemma update_fresh (f : object -> object) (l : loc) (h : gmap loc object) :
  partial_alter (fun o => Some (f (default ∅ o))) l h
  = <[l := f (default ∅ (h !! l))]> h.
Proof.
  apply map_eq. intros j. rewrite lookup_partial_alter, lookup_insert.
  by repeat case_decide.
Qed.

Lemma set_prop_insert (k : jsstring) (v : value) (l : loc) (o : object)
    (h : gmap loc object) :
  partial_alter (fun o => Some (<[k := v]> (default ∅ o))) l (<[l := o]> h)
  = <[l := <[k := v]> o]> h.
Proof.
  by rewrite (update_fresh (insert k v)), lookup_insert_eq, insert_insert_eq.
Qed.

Lemma delete_prop_insert (k : jsstring) (l : loc) (o : object)
    (h : gmap loc object) :
  partial_alter (fun o => Some (delete k (default ∅ o))) l (<[l := o]> h)
  = <[l := delete k o]> h.
Proof.
  by rewrite (update_fresh (delete k)), lookup_insert_eq, insert_insert_eq.
Qed.

Lemma props_insert (l : loc) (o : object) (a s : value) (h : gmap loc object)
    (n rp : jsstring) (c : list event) :
  props l {| accessKey := a; secretKey := s; heap := <[l := o]> h;
             now := n; reply := rp; calls := c |} = o.
Proof. unfold props. cbn [heap]. by rewrite lookup_insert_eq. Qed.

Ltac run_monad :=
  cbv beta iota zeta delta
    [bind ret throw lift emit formatDate_now Sha256Hash computeDigest
     computeHmacSha256Signature GetSignatureKey Sha256Hmac set_prop delete_prop
     update get_props new_object Logger_log set_heap props
     heap calls accessKey secretKey now reply].

Lemma BuildRequest_returns (service action : value) (params : option object)
    (region method payload : value) (headers : option loc) (uri bucket : value)
    (w : world) (m query : jsstring) :
  truthy service = true ->
  truthy action = true ->
  or_default method (VStr (js "GET")) = VStr m ->
  (if str_eqb (toLowerCase m) (js "post") then query = []
   else BuildRequest_query action params = Return query) ->
  let region' := or_default region AWS_DEFAULT_REGION in
  let uri' := ToString (or_default uri (VStr (js "/"))) in
  let body := body_of payload in
  let dateTimeStamp := now w in
  let dateStamp := substring0 8 dateTimeStamp in
  let hashedPayload :=
    BytesToHex (map signed (SHA256.sha256 (utf8 (ToString body)))) in
  let host := GetHost service region' (or_default bucket AWS_DEFAULT_BUCKET) in
  let l := header_ref headers w in
  let merged :=
    <[js "X-Amz-Content-SHA256" := VStr hashedPayload]>
      (<[js "X-Amz-Target" := action]>
         (<[js "X-Amz-Date" := VStr dateTimeStamp]>
            (<[js "Host" := VStr host]> (header_base headers w)))) in
  let canonHeaders := fst (BuildRequest_canon merged) in
  let signedHeaders := snd (BuildRequest_canon merged) in
  let CanonicalString :=
    m ++ nl ++ uri' ++ nl ++ query ++ nl ++ canonHeaders ++ nl
      ++ signedHeaders ++ nl ++ hashedPayload in
  let canonHash :=
    BytesToHex (map signed (SHA256.sha256 (utf8 CanonicalString))) in
  let scope := dateStamp ++ js "/" ++ ToString region' ++ js "/"
                         ++ ToString service ++ js "/aws4_request" in
  let StringToSign :=
    js "AWS4-HMAC-SHA256" ++ nl ++ dateTimeStamp ++ nl ++ scope ++ nl ++ canonHash in
  let hmac := fun value key =>
    map signed (SHA256.hmac_sha256 (map octet key) (map octet value)) in
  let secret := getBytes (js "AWS4" ++ ToString (secretKey w)) in
  let kDate := hmac (getBytes dateStamp) secret in
  let kRegion := hmac (getBytes (ToString region')) kDate in
  let kService := hmac (getBytes (ToString service)) kRegion in
  let kSigning := hmac (getBytes (js "aws4_request")) kService in
  let signature := BytesToHex (hmac (getBytes StringToSign) kSigning) in
  let authHeader :=
    js "AWS4-HMAC-SHA256" ++ js " Credential=" ++ ToString (accessKey w)
      ++ js "/" ++ scope ++ js ", SignedHeaders=" ++ signedHeaders
      ++ js ",Signature=" ++ signature in
  let r :=
    {| url := if str_eqb (toLowerCase m) (js "post")
              then js "https://" ++ host ++ uri'
              else js "https://" ++ host ++ uri' ++ js "?" ++ query;
       method := m; headers := l; muteHttpExceptions := true;
       payload := body |} in
  BuildRequest service action params region method payload headers uri bucket w
  = (Return r,
     {| accessKey := accessKey w; secretKey := secretKey w;
        heap := <[l := delete (js "Host")
                         (<[js "Authorization" := VStr authHeader]> merged)]> (heap w);
        now := now w; reply := reply w;
        calls :=
          [ ELogRequest r; ELog (js "Generated AWS API request");
            EHmac (getBytes StringToSign) kSigning;
            EHmac (getBytes (js "aws4_request")) kService;
            EHmac (getBytes (ToString service)) kRegion;
            EHmac (getBytes (ToString region')) kDate;
            EHmac (getBytes dateStamp) secret;
            EDigest CanonicalString; EDigest (ToString body); EFormatDate ]
          ++ calls w |}).
Proof.
  intros Hs Ha Hm Hq. cbv zeta. unfold BuildRequest, body_of.
  rewrite Hs, Ha, Hm. cbn [negb].
  destruct headers as [l|]; cbn [header_ref header_base]; run_monad;
    (destruct (str_eqb (toLowerCase m) (js "post")) eqn:Hpost;
     [subst query | rewrite Hq]); run_monad.
  1,2: rewrite (update_fresh (insert (js "Host") _) l).
  all: rewrite !set_prop_insert, ?delete_prop_insert.
  all: rewrite lookup_insert_eq; cbn [default from_option id app].
  all: reflexivity.
Qed.

(** ** Missing parameters *)

(** C6. When [service] or [action] is falsy, [BuildRequest] throws the
    missing-parameter error and leaves the world as it was: no
    timestamp read, no digest or HMAC computed, no header object
    touched; [BuildAndSendRequest] fails likewise, without a fetch. *)
Theorem BuildRequest_missing_parameter (service action : value)
    (params : option object) (region method payload : value)
    (headers : option loc) (uri bucket : value) (w : world) :
  truthy service = false \/ truthy action = false ->
  exists e, MissingParameter e
    /\ BuildRequest service action params region method payload
                    headers uri bucket w = (Throw e, w)
    /\ BuildAndSendRequest service action params region method payload
                           headers uri bucket w = (Throw e, w)
    /\ (truthy service = false -> e = Error (js "Missing AWS API Service")).
Proof.
  intros H. unfold BuildAndSendRequest, bind, BuildRequest.
  destruct (truthy service) eqn:Hs; cbn [negb].
  - destruct H as [H|H]; [done|]. rewrite H. cbn [negb].
    exists (Error (js "Missing AWS API Action")).
    unfold MissingParameter, throw. repeat split; try done. by right.
  - exists (Error (js "Missing AWS API Service")).
    unfold MissingParameter, throw. repeat split; try done. by left.
Qed.

Lemma BuildRequest_missing_parameter_witness :
  exists e, MissingParameter e
    /\ BuildRequest VUndefined (VStr (js "DescribeInstances")) None VUndefined
         VUndefined VUndefined None VUndefined VUndefined fresh_world
       = (Throw e, fresh_world).
Proof.
  destruct (BuildRequest_missing_parameter VUndefined
              (VStr (js "DescribeInstances")) None VUndefined VUndefined
              VUndefined None VUndefined VUndefined fresh_world)
    as (e & He & Hrun & _); [left; reflexivity|].
  exists e. split; [exact He | exact Hrun].
Defined.

Ltac js_neq :=
  let H := fresh in intro H; vm_compute in H; discriminate H.

(** ** The payload *)

(** C10. [BuildRequest] returns, as payload, the empty string for a
    falsy argument (0, false, null, undefined among them), the argument
    itself for a non-empty string and its JSON text for any other truthy
    value; the X-Amz-Content-SHA256 header is the SHA-256 hex digest of
    that payload, for a falsy argument the digest of the empty string. *)
Theorem BuildRequest_falsy_payload (service action : value)
    (params : option object) (region method_arg payload_arg : value)
    (headers_arg : option loc) (uri bucket : value) (w : world)
    (m query : jsstring) :
  truthy service = true ->
  truthy action = true ->
  or_default method_arg (VStr (js "GET")) = VStr m ->
  (if str_eqb (toLowerCase m) (js "post") then query = []
   else BuildRequest_query action params = Return query) ->
  exists r w',
    BuildRequest service action params region method_arg payload_arg
                 headers_arg uri bucket w = (Return r, w')
    /\ payload r
       = (if truthy payload_arg
          then (if is_string payload_arg then payload_arg
                else JSON_stringify payload_arg)
          else VStr [])
    /\ props (headers r) w' !! js "X-Amz-Content-SHA256"
       = Some (VStr (BytesToHex (map signed
                 (SHA256.sha256 (utf8 (ToString (payload r)))))))
    /\ (truthy payload_arg = false ->
        payload r = VStr []
        /\ props (headers r) w' !! js "X-Amz-Content-SHA256"
           = Some (VStr (js "e3b0c44298fc1c149afbf4c8996fb92427ae41e4649b934ca495991b7852b855")))
    /\ truthy (VNum 0) = false /\ truthy (VBool false) = false
    /\ truthy VNull = false /\ truthy VUndefined = false.
Proof.
  intros Hs Ha Hm Hq.
  pose proof (BuildRequest_returns service action params region method_arg
                payload_arg headers_arg uri bucket w m query Hs Ha Hm Hq) as Hrun.
  cbv zeta in Hrun. eexists _, _. split; [exact Hrun|].
  assert (Hbody : body_of payload_arg
                  = (if truthy payload_arg
                     then (if is_string payload_arg then payload_arg
                           else JSON_stringify payload_arg)
                     else VStr [])).
  { unfold body_of, or_default. by destruct (truthy payload_arg). }
  cbn [payload headers]. rewrite !props_insert.
  rewrite lookup_delete_ne by js_neq. rewrite lookup_insert_ne by js_neq.
  rewrite lookup_insert_eq.
  split; [exact Hbody|]. split; [reflexivity|].
  split; [|by repeat split].
  intros Hp. rewrite Hbody, Hp. split; [reflexivity|].
  apply (f_equal (fun s => Some (VStr s))). vm_compute. reflexivity.
Qed.

Lemma BuildRequest_falsy_payload_witness :
  exists r w',
    BuildRequest (VStr (js "ec2")) (VStr (js "DescribeInstances")) None
      VUndefined VUndefined (VNum 0) None VUndefined VUndefined fresh_world
    = (Return r, w')
    /\ payload r = VStr [].
Proof.
  destruct (BuildRequest_falsy_payload (VStr (js "ec2"))
              (VStr (js "DescribeInstances")) None VUndefined VUndefined
              (VNum 0) None VUndefined VUndefined fresh_world
              (js "GET") (js "Action=DescribeInstances"))
    as (r & w' & Hrun & _ & _ & Hfalsy & _);
    [reflexivity | reflexivity | reflexivity | vm_compute; reflexivity |].
  exists r, w'. split; [exact Hrun | by apply Hfalsy].
Defined.

(** ** Failures after the guards *)

Lemma encode_points_error (cps : list (option N)) (e : error) :
  encode_points cps = Throw e -> e = URIError.
Proof.
  induction cps as [|[c|] cps IH]; cbn [encode_points]; [done| |congruence].
  destruct (encode_points cps); [done|]. intros [= <-]. by apply IH.
Qed.





(** ** Credentials *)





(** ** The caller's header object *)




(** Without a header object from the caller a fresh one is used and no
    object of the heap is touched. *)
Lemma BuildRequest_fresh_headers (service action : value)
    (params : option object) (region method_arg payload_arg : value)
    (uri bucket : value) (w : world) (m query : jsstring) :
  truthy service = true ->
  truthy action = true ->
  or_default method_arg (VStr (js "GET")) = VStr m ->
  (if str_eqb (toLowerCase m) (js "post") then query = []
   else BuildRequest_query action params = Return query) ->
  exists r w',
    BuildRequest service action params region method_arg payload_arg
                 None uri bucket w = (Return r, w')
    /\ heap w !! headers r = None
    /\ (forall l', is_Some (heap w !! l') -> heap w' !! l' = heap w !! l').
Proof.
  intros Hs Ha Hm Hq.
  pose proof (BuildRequest_returns service action params region method_arg
                payload_arg None uri bucket w m query Hs Ha Hm Hq) as Hrun.
  cbv zeta in Hrun. eexists _, _. split; [exact Hrun|].
  cbn [headers header_ref heap].
  assert (Hfresh : heap w !! fresh (dom (heap w)) = None).
  { apply not_elem_of_dom. apply is_fresh. }
  split; [exact Hfresh|].
  intros l' [o Hl']. rewrite lookup_insert_ne; [done|].
  intros Heq. rewrite <- Heq in Hl'. congruence.
Qed.

(** ** The order of names *)

Lemma str_lt_irrefl (a : jsstring) : str_lt a a = false.
Proof.
  induction a as [|x a IH]; [reflexivity|].
  cbn [str_lt]. by rewrite N.ltb_irrefl.
Qed.

Lemma str_lt_trans (a b c : jsstring) :
  str_lt a b = true -> str_lt b c = true -> str_lt a c = true.
Proof.
  revert b c. induction a as [|x a IH]; intros [|y b] [|z c]; try done.
  cbn [str_lt].
  destruct (N.ltb_spec x y), (N.ltb_spec y x), (N.ltb_spec y z),
    (N.ltb_spec z y), (N.ltb_spec x z), (N.ltb_spec z x);
    try done; try lia.
  apply IH.
Qed.

Lemma str_lt_total (a b : jsstring) :
  str_lt a b = false -> a <> b -> str_lt b a = true.
Proof.
  revert b. induction a as [|x a IH]; intros [|y b]; try done.
  cbn [str_lt].
  destruct (N.ltb_spec x y), (N.ltb_spec y x); try done; try lia.
  intros Hlt Hne. apply IH; [done|].
  assert (x = y) by lia. congruence.
Qed.

Lemma sort_insert_perm (k : jsstring) (l : list jsstring) :
  sort_insert k l ≡ₚ k :: l.
Proof.
  induction l as [|x l IH]; [reflexivity|].
  cbn [sort_insert]. destruct (compare_keys k x <? 0)%Z; [reflexivity|].
  rewrite IH. apply Permutation_swap.
Qed.

Lemma sort_keys_perm (l : list jsstring) : sort_keys l ≡ₚ l.
Proof.
  induction l as [|x l IH]; [reflexivity|].
  cbn [sort_keys foldr]. rewrite sort_insert_perm. by f_equiv.
Qed.

Lemma compare_keys_lt (a b : jsstring) :
  (compare_keys a b <? 0)%Z = str_lt a b.
Proof. unfold compare_keys. by destruct (str_lt a b). Qed.

Lemma sort_insert_sorted (k : jsstring) (l : list jsstring) :
  k ∉ l -> StronglySorted names_lt l -> StronglySorted names_lt (sort_insert k l).
Proof.
  intros Hk Hl. induction Hl as [|x l Hl IH Hx]; cbn [sort_insert].
  - repeat constructor.
  - rewrite compare_keys_lt. apply not_elem_of_cons in Hk as [Hkx Hk].
    destruct (str_lt k x) eqn:E.
    + constructor; [by constructor|].
      constructor; [exact E|].
      eapply Forall_impl; [exact Hx|]. intros y Hy.
      by apply (str_lt_trans k x y).
    + constructor; [by apply IH|].
      rewrite sort_insert_perm. constructor; [|exact Hx].
      by apply str_lt_total.
Qed.

Lemma sort_keys_sorted (l : list jsstring) :
  NoDup l -> StronglySorted names_lt (sort_keys l).
Proof.
  induction 1 as [|x l Hx Hl IH]; [constructor|].
  cbn [sort_keys foldr]. apply sort_insert_sorted; [|exact IH].
  by rewrite sort_keys_perm.
Qed.

(** ** The query string *)

Lemma BuildRequest_query_text (action : value) (params : option object) :
  (forall name v, default ∅ params !! name = Some v ->
                  exists enc, UrlEncode v = Return enc) ->
  BuildRequest_query action params
  = Return (query_text action (default ∅ params)
              (sort_keys (Object_keys (default ∅ params)))).
Proof.
  intros Henc. unfold BuildRequest_query, query_text.
  destruct params as [ps|]; cbn [default from_option id].
  2: { change (sort_keys (Object_keys ∅)) with (@nil jsstring).
       cbn [flat_map]. by rewrite app_nil_r. }
  assert (Hnames : forall name, name ∈ sort_keys (Object_keys ps) ->
                     exists enc, UrlEncode (get_prop ps name) = Return enc).
  { intros name Hin. rewrite sort_keys_perm in Hin.
    unfold Object_keys in Hin. apply list_elem_of_fmap in Hin as [[k v] [-> Hin]].
    apply elem_of_map_to_list in Hin. cbn [fst]. unfold get_prop.
    rewrite Hin. cbn [default from_option id]. by apply (Henc k). }
  revert Hnames. generalize (sort_keys (Object_keys ps)).
  intros names. rewrite (app_assoc (js "Action=")). revert names.
  generalize (js "Action=" ++ ToString action).
  intros q names. revert q.
  induction names as [|name names IH]; intros q Hnames; cbn [fold_left flat_map].
  - by rewrite app_nil_r.
  - destruct (Hnames name) as [enc He]; [by left|].
    unfold encoded at 1. rewrite He. rewrite IH.
    + by rewrite <- !app_assoc.
    + intros n Hn. apply Hnames. by right.
Qed.

(** C7. When the method, lower-cased, is "post", the URL of the request
    has no query and the query line of the canonical request is empty.
    For every other method the query is "Action=" and the action, then
    "&name=value" for each own name of the parameter object, the names in
    ascending code-unit order (each exactly once) and each value encoded
    by [UrlEncode]; it follows "?" in the URL and is the query line of the
    canonical request. *)
Theorem BuildRequest_query_string (service action : value)
    (params : option object) (region method_arg payload_arg : value)
    (headers_arg : option loc) (uri bucket : value) (w : world)
    (m : jsstring) :
  truthy service = true ->
  truthy action = true ->
  or_default method_arg (VStr (js "GET")) = VStr m ->
  (str_eqb (toLowerCase m) (js "post") = false ->
   forall name v, default ∅ params !! name = Some v ->
                  exists enc, UrlEncode v = Return enc) ->
  let ps := default ∅ params in
  let names := sort_keys (Object_keys ps) in
  let query :=
    if str_eqb (toLowerCase m) (js "post") then []
    else query_text action ps names in
  let base :=
    js "https://"
       ++ GetHost service (or_default region AWS_DEFAULT_REGION)
                  (or_default bucket AWS_DEFAULT_BUCKET)
       ++ ToString (or_default uri (VStr (js "/"))) in
  StronglySorted names_lt names
  /\ NoDup names
  /\ (forall name, name ∈ names <-> is_Some (ps !! name))
  /\ exists r w' rest,
       BuildRequest service action params region method_arg payload_arg
                    headers_arg uri bucket w = (Return r, w')
       /\ url r = (if str_eqb (toLowerCase m) (js "post") then base
                   else base ++ js "?" ++ query)
       /\ EDigest (m ++ nl ++ ToString (or_default uri (VStr (js "/"))) ++ nl
                     ++ query ++ nl ++ rest) ∈ calls w'.
Proof.
  intros Hs Ha Hm Henc ps names query base.
  assert (Hdup : NoDup (Object_keys ps)) by apply NoDup_fst_map_to_list.
  assert (Hperm : names ≡ₚ Object_keys ps) by apply sort_keys_perm.
  split; [by apply sort_keys_sorted|].
  split; [by rewrite Hperm|].
  split.
  { intros name. rewrite Hperm. unfold Object_keys.
    rewrite list_elem_of_fmap. split.
    - intros [[k v] [-> Hin]]. apply elem_of_map_to_list in Hin. by eexists.
    - intros [v Hv]. exists (name, v). split; [done|].
      by apply elem_of_map_to_list. }
  assert (Hq : if str_eqb (toLowerCase m) (js "post") then query = []
               else BuildRequest_query action params = Return query).
  { subst query. destruct (str_eqb (toLowerCase m) (js "post")); [done|].
    by apply BuildRequest_query_text, Henc. }
  pose proof (BuildRequest_returns service action params region method_arg
                payload_arg headers_arg uri bucket w m query Hs Ha Hm Hq)
    as Hrun.
  cbv zeta in Hrun. eexists _, _, _. split; [exact Hrun|].
  cbn [url calls]. split.
  - subst base. destruct (str_eqb (toLowerCase m) (js "post")); [done|].
    by rewrite <- !app_assoc.
  - rewrite elem_of_app. left. do 7 right. left.
Qed.

Lemma BuildRequest_query_string_witness :
  exists r w',
    BuildRequest (VStr (js "ec2")) (VStr (js "DescribeInstances"))
      (Some usage_params) VUndefined VUndefined VUndefined None VUndefined
      VUndefined init_world = (Return r, w')
    /\ url r = js "https://ec2.us-east-1.amazonaws.com/?Action=DescribeInstances&Version=2015-10-01".
Proof.
  destruct (BuildRequest_query_string (VStr (js "ec2"))
              (VStr (js "DescribeInstances")) (Some usage_params) VUndefined
              VUndefined VUndefined None VUndefined VUndefined init_world
              (js "GET"))
    as (_ & _ & _ & r & w' & rest & Hrun & Hurl & _);
    [reflexivity | reflexivity | reflexivity | |].
  - intros _ name v Hv. cbn [default from_option id] in Hv.
    unfold usage_params in Hv. apply lookup_singleton_Some in Hv as [_ <-].
    eexists. vm_compute. reflexivity.
  - exists r, w'. split; [exact Hrun|]. rewrite Hurl.
    vm_compute. reflexivity.
Defined.

(** ** The canonical headers *)

Lemma flat_map_join (f : jsstring -> jsstring) (sep : jsstring)
    (x : jsstring) (l : list jsstring) :
  flat_map (fun h => f h ++ sep) (x :: l) = join sep (map f (x :: l)) ++ sep.
Proof.
  revert x. induction l as [|y l IH]; intros x.
  - cbn. by rewrite app_nil_r.
  - change (flat_map (fun h => f h ++ sep) (x :: y :: l))
      with ((f x ++ sep) ++ flat_map (fun h => f h ++ sep) (y :: l)).
    rewrite IH.
    change (join sep (map f (x :: y :: l)))
      with (f x ++ sep ++ join sep (map f (y :: l))).
    by rewrite <- !app_assoc.
Qed.

Lemma BuildRequest_canon_fold (hs : object) (names : list jsstring)
    (c s : jsstring) :
  fold_left
    (fun '(canonHeaders, signedHeaders) h =>
       (canonHeaders ++ toLowerCase h ++ js ":" ++ ToString (get_prop hs h) ++ nl,
        signedHeaders ++ toLowerCase h ++ js ";"))
    names (c, s)
  = (c ++ flat_map (fun h => toLowerCase h ++ js ":"
                               ++ ToString (get_prop hs h) ++ nl) names,
     s ++ flat_map (fun h => toLowerCase h ++ js ";") names).
Proof.
  revert c s. induction names as [|h names IH]; intros c s; cbn [fold_left flat_map].
  - by rewrite !app_nil_r.
  - rewrite IH. by rewrite <- !app_assoc.
Qed.

(** The canonical header block is a "name:value" line per header and the
    signed-header list the names joined by ";" with no separator at the
    end, the names lower-cased after they were sorted as written. *)
Lemma BuildRequest_canon_sorted_then_lowered (hs : object) :
  BuildRequest_canon hs
  = (flat_map (fun h => toLowerCase h ++ js ":" ++ ToString (get_prop hs h) ++ nl)
              (sort_keys (Object_keys hs)),
     join (js ";") (map toLowerCase (sort_keys (Object_keys hs)))).
Proof.
  unfold BuildRequest_canon. rewrite BuildRequest_canon_fold.
  cbn [app]. f_equal. unfold substring0.
  destruct (sort_keys (Object_keys hs)) as [|x l]; [reflexivity|].
  rewrite (flat_map_join toLowerCase (js ";")).
  apply take_app_length'. rewrite length_app.
  change (length (js ";")) with 1%nat. lia.
Qed.

(** * Further properties *)

(** ** [UrlEncode] on every string *)

Lemma pairs_ind (P : jsstring -> Prop) :
  P [] ->
  (forall c s, P s -> (forall d s', s = d :: s' -> P s') -> P (c :: s)) ->
  forall s, P s.
Proof.
  intros Hnil Hcons s.
  assert (H : P s /\ (forall d s', s = d :: s' -> P s')); [|by destruct H].
  induction s as [|c s [IH1 IH2]]; [by split|]. split.
  - by apply Hcons.
  - by intros d s' [= _ <-].
Qed.

Lemma code_units_check (s : jsstring) :
  forallb (fun c => c <? 65536) s = true -> code_units s.
Proof.
  intros H. apply Forall_forall. intros c Hc. apply list_elem_of_In in Hc.
  rewrite forallb_forall in H. by apply N.ltb_lt, H.
Qed.

Lemma octet_range_complete (o : N) :
  o < 256 -> In o (map N.of_nat (seq 0 256)).
Proof.
  intros Ho. apply in_map_iff. exists (N.to_nat o). split; [lia|].
  apply in_seq. lia.
Qed.

Lemma percent_url_safe (o : N) :
  o < 256 -> Forall (fun c => url_safe c = true) (percent o).
Proof.
  intros Ho.
  assert (Hall : forallb (fun o => forallb url_safe (percent o))
                         (map N.of_nat (seq 0 256)) = true)
    by (vm_compute; reflexivity).
  rewrite forallb_forall in Hall.
  specialize (Hall o (octet_range_complete o Ho)).
  rewrite forallb_forall in Hall. apply Forall_forall.
  intros c Hc. apply Hall. by apply list_elem_of_In.
Qed.

Ltac octet_lia :=
  first
    [ lia
    | match goal with
      | |- context [?a mod 64] =>
          pose proof (N.mod_upper_bound a 64 ltac:(lia)); lia
      end
    | zify; Z.div_mod_to_equations; lia
    | exact I ].

Lemma utf8_octets_bound (cp : N) :
  cp < 1114112 -> Forall (fun o => o < 256) (utf8_octets cp).
Proof.
  intros Hcp. unfold utf8_octets.
  destruct (N.ltb_spec cp 128);
    [rewrite !Forall_cons, Forall_nil; repeat split; octet_lia|].
  destruct (N.ltb_spec cp 2048);
    [rewrite !Forall_cons, Forall_nil; repeat split; octet_lia|].
  destruct (N.ltb_spec cp 65536);
    rewrite !Forall_cons, Forall_nil; repeat split; octet_lia.
Qed.

Lemma CodePoints_bound (s : jsstring) :
  code_units s ->
  Forall (fun cp : option N => forall c, cp = Some c -> c < 1114112) (CodePoints s).
Proof.
  induction s as [|c s IH IH2] using pairs_ind; intros Hs; [constructor|].
  apply Forall_cons in Hs as [Hc Hs]. cbn [CodePoints].
  destruct (is_high_surrogate c) eqn:Hh.
  - destruct s as [|d s']; [by repeat constructor|].
    destruct (is_low_surrogate d) eqn:Hl.
    + constructor.
      * intros x [= <-]. unfold is_high_surrogate, is_low_surrogate in *.
        apply andb_true_iff in Hh as [Hh1 Hh2].
        apply andb_true_iff in Hl as [Hl1 Hl2].
        apply N.leb_le in Hh1, Hh2, Hl1, Hl2. lia.
      * apply (IH2 d s' eq_refl). by apply Forall_cons in Hs as [_ ?].
    + constructor; [done|]. by apply IH.
  - destruct (is_low_surrogate c); constructor; try done; try by apply IH.
    intros x [= <-]. lia.
Qed.

Lemma uriUnescaped_safe_or_reserved (c : N) :
  uriUnescaped c = true -> url_safe c = true \/ aws_reserved c = true.
Proof.
  unfold uriUnescaped, url_safe, aws_reserved, alnum.
  change (js "-_.!~*'()") with [45; 95; 46; 33; 126; 42; 39; 40; 41].
  change (js "-_.~%") with [45; 95; 46; 126; 37].
  change (js "!'()*") with [33; 39; 40; 41; 42].
  rewrite !orb_true_iff, !bool_decide_eq_true, !elem_of_cons, !elem_of_nil.
  tauto.
Qed.

Lemma encode_points_alphabet (cps : list (option N)) (out : jsstring) :
  Forall (fun cp : option N => forall c, cp = Some c -> c < 1114112) cps ->
  encode_points cps = Return out ->
  Forall (fun c => url_safe c = true \/ aws_reserved c = true) out.
Proof.
  intros Hb. revert out.
  induction Hb as [|[c|] cps Hc _ IH]; intros out; cbn [encode_points];
    [by intros [= <-] | | done].
  destruct (encode_points cps) as [r|]; [|done]. intros [= <-].
  apply Forall_app. split; [|by apply IH].
  destruct (uriUnescaped c) eqn:E.
  - constructor; [by apply uriUnescaped_safe_or_reserved | constructor].
  - pose proof (utf8_octets_bound c (Hc c eq_refl)) as Ho.
    induction Ho as [|o os Ho _ IHo]; [constructor|].
    cbn [flat_map]. apply Forall_app. split; [|exact IHo].
    eapply Forall_impl; [by apply percent_url_safe|]. by left.
Qed.

(** Whatever [UrlEncode] returns for a string of code units is made of
    letters, digits, [- _ . ~] and the characters of percent escapes. *)
Theorem UrlEncode_url_safe (v : value) (out : jsstring) :
  code_units (ToString v) ->
  UrlEncode v = Return out ->
  Forall (fun c => url_safe c = true) out.
Proof.
  intros Hu. unfold UrlEncode, encodeURIComponent.
  destruct (encode_points (CodePoints (ToString v))) as [s|] eqn:E; [|done].
  intros [= <-].
  pose proof (encode_points_alphabet _ _ (CodePoints_bound _ Hu) E) as Hs.
  clear E. induction Hs as [|c s Hc _ IH]; [constructor|].
  cbn [flat_map]. apply Forall_app. split; [|exact IH].
  destruct (aws_reserved c) eqn:Er.
  - apply aws_reserved_cases in Er.
    destruct Er as [->|[->|[->|[->| ->]]]]; vm_compute; repeat constructor.
  - constructor; [|constructor]. by destruct Hc.
Qed.

Lemma UrlEncode_url_safe_witness :
  Forall (fun c => url_safe c = true) (js "a%20b%2F%2a").
Proof.
  apply (UrlEncode_url_safe (VStr (js "a b/*")) (js "a%20b%2F%2a")).
  - apply code_units_check. vm_compute. reflexivity.
  - vm_compute. reflexivity.
Defined.

Lemma aws_unreserved_facts (c : N) :
  aws_unreserved c = true ->
  uriUnescaped c = true /\ aws_reserved c = false
  /\ is_high_surrogate c = false /\ is_low_surrogate c = false.
Proof.
  intros Hc.
  assert (Hlt : c < 128).
  { unfold aws_unreserved, alnum in Hc.
    change (js "-_.~") with [45; 95; 46; 126] in Hc.
    rewrite !orb_true_iff, !andb_true_iff, !N.leb_le, bool_decide_eq_true,
      !elem_of_cons, elem_of_nil in Hc. lia. }
  assert (Hall : forallb
            (fun c => implb (aws_unreserved c)
                        (uriUnescaped c && negb (aws_reserved c)
                         && negb (is_high_surrogate c) && negb (is_low_surrogate c)))
            (map N.of_nat (seq 0 256)) = true)
    by (vm_compute; reflexivity).
  rewrite forallb_forall in Hall.
  specialize (Hall c (octet_range_complete c ltac:(lia))).
  rewrite Hc in Hall. cbn [implb] in Hall.
  rewrite !andb_true_iff, !negb_true_iff in Hall. tauto.
Qed.

(** X2. A string of letters, digits and [- _ . ~] comes back from
    [UrlEncode] as it went in. *)
Theorem UrlEncode_unreserved_identity (s : jsstring) :
  Forall (fun c => aws_unreserved c = true) s ->
  UrlEncode (VStr s) = Return s.
Proof.
  intros Hs. unfold UrlEncode, encodeURIComponent. cbn [ToString].
  assert (Hcp : CodePoints s = map Some s).
  { induction Hs as [|c s Hc _ IH]; [reflexivity|].
    destruct (aws_unreserved_facts c Hc) as (_ & _ & Hh & Hl).
    cbn [CodePoints map]. by rewrite Hh, Hl, IH. }
  assert (Henc : encode_points (map Some s) = Return s).
  { clear Hcp. induction Hs as [|c s Hc _ IH]; [reflexivity|].
    destruct (aws_unreserved_facts c Hc) as (Hu & _).
    cbn [encode_points map]. by rewrite IH, Hu. }
  rewrite Hcp, Henc. f_equal. clear Hcp Henc.
  induction Hs as [|c s Hc _ IH]; [reflexivity|].
  destruct (aws_unreserved_facts c Hc) as (_ & Hr & _).
  cbn [flat_map]. by rewrite Hr, IH.
Qed.

Lemma UrlEncode_unreserved_identity_witness :
  UrlEncode (VStr (js "2015-10-01_a.b~Z")) = Return (js "2015-10-01_a.b~Z").
Proof.
  apply UrlEncode_unreserved_identity.
  apply Forall_forall. intros c Hc. apply list_elem_of_In in Hc.
  revert c Hc. apply forallb_forall. vm_compute. reflexivity.
Defined.

Lemma encode_points_returns (cps : list (option N)) :
  (exists out, encode_points cps = Return out)
  <-> Forall (fun cp : option N => is_Some cp) cps.
Proof.
  induction cps as [|[c|] cps IH]; cbn [encode_points].
  - split; [constructor | by eexists].
  - rewrite Forall_cons, <- IH. split.
    + intros [out H]. split; [by eexists|].
      destruct (encode_points cps); [by eexists | done].
    + intros [_ [r ->]]. by eexists.
  - split; [by intros [out H]|].
    intros H. apply Forall_cons in H as [[x Hx] _]. done.
Qed.

(** X3. [UrlEncode] returns exactly for the values whose text has no
    unpaired surrogate, and throws a [URIError] exactly for the others. *)
Theorem UrlEncode_returns_iff_well_formed (v : value) :
  ((exists out, UrlEncode v = Return out) <-> well_formed (ToString v))
  /\ (UrlEncode v = Throw URIError <-> ~ well_formed (ToString v)).
Proof.
  unfold well_formed. rewrite <- encode_points_returns.
  unfold UrlEncode, encodeURIComponent.
  destruct (encode_points (CodePoints (ToString v))) as [s|e] eqn:E.
  - split; split.
    + by eexists.
    + by eexists.
    + done.
    + intros H. destruct H. by eexists.
  - apply encode_points_error in E as ->. split; split.
    + by intros [out H].
    + by intros [out H].
    + by intros _ [out H].
    + done.
Qed.

(** ** Digests as bytes and as hex *)

Lemma round_length (st : list N) (kw : N * N) :
  length (SHA256.round st kw) = length st.
Proof.
  unfold SHA256.round.
  do 9 (destruct st as [|? st]; [reflexivity|]). reflexivity.
Qed.

Lemma fold_round_length (l : list (N * N)) (st : list N) :
  length (fold_left SHA256.round l st) = length st.
Proof.
  revert st. induction l as [|kw l IH]; intros st; [reflexivity|].
  cbn [fold_left]. by rewrite IH, round_length.
Qed.

Lemma zip_add32_bound (hs xs : list N) :
  Forall (fun x => x < SHA256.w32) (zip_with SHA256.add32 hs xs).
Proof.
  revert xs. induction hs as [|h hs IH]; intros [|x xs]; cbn [zip_with];
    try constructor; [|apply IH].
  unfold SHA256.add32. by apply N.mod_upper_bound.
Qed.

(** Eight words of thirty-two bits. *)
Lemma compress_words (hs block : list N) :
  length hs = 8%nat ->
  length (SHA256.compress hs block) = 8%nat
  /\ Forall (fun x => x < SHA256.w32) (SHA256.compress hs block).
Proof.
  intros Hl. unfold SHA256.compress. split; [|apply zip_add32_bound].
  rewrite length_zip_with, fold_round_length. lia.
Qed.

Lemma fold_compress_words (bs : list (list N)) (hs : list N) :
  length hs = 8%nat ->
  Forall (fun x => x < SHA256.w32) hs ->
  length (fold_left SHA256.compress bs hs) = 8%nat
  /\ Forall (fun x => x < SHA256.w32) (fold_left SHA256.compress bs hs).
Proof.
  revert hs. induction bs as [|b bs IH]; intros hs Hl Hb; [done|].
  cbn [fold_left]. destruct (compress_words hs b Hl) as [Hl' Hb'].
  by apply IH.
Qed.

Lemma word_octets_bound (x : N) :
  x < SHA256.w32 -> Forall (fun o => o < 256) (SHA256.word_octets x).
Proof.
  unfold SHA256.w32, SHA256.word_octets. intros Hx.
  rewrite !Forall_cons, Forall_nil.
  repeat split; try (by apply N.mod_upper_bound).
  apply N.Div0.div_lt_upper_bound. lia.
Qed.

Lemma sha256_octets (msg : list N) :
  length (SHA256.sha256 msg) = 32%nat
  /\ Forall (fun o => o < 256) (SHA256.sha256 msg).
Proof.
  unfold SHA256.sha256.
  set (bs := SHA256.blocks _ _).
  assert (H0l : length SHA256.H0 = 8%nat) by reflexivity.
  assert (H0b : Forall (fun x => x < SHA256.w32) SHA256.H0).
  { unfold SHA256.H0, SHA256.w32. rewrite !Forall_cons, Forall_nil.
    repeat split; lia. }
  destruct (fold_compress_words bs SHA256.H0 H0l H0b) as [Hl Hb].
  revert Hl Hb. generalize (fold_left SHA256.compress bs SHA256.H0).
  intros ws Hl Hb.
  do 9 (destruct ws as [|? ws]; try discriminate Hl).
  split; [reflexivity|].
  cbn [flat_map]. rewrite !Forall_app.
  rewrite !Forall_cons in Hb. destruct Hb as (?&?&?&?&?&?&?&?&_).
  repeat split; try (by apply word_octets_bound). constructor.
Qed.

Lemma hmac_sha256_octets (key msg : list N) :
  length (SHA256.hmac_sha256 key msg) = 32%nat
  /\ Forall (fun o => o < 256) (SHA256.hmac_sha256 key msg).
Proof. apply sha256_octets. Qed.

Lemma octet_signed (b : N) : b < 256 -> octet (signed b) = b.
Proof.
  intros Hb. unfold octet, signed. destruct (N.ltb_spec b 128).
  - rewrite Z.mod_small by lia. lia.
  - replace (Z.of_N b - 256)%Z with (Z.of_N b + (-1) * 256)%Z by lia.
    rewrite Z_mod_plus_full, Z.mod_small by lia. lia.
Qed.

Lemma map_octet_signed (l : list N) :
  Forall (fun o => o < 256) l -> map octet (map signed l) = l.
Proof.
  induction 1 as [|b l Hb _ IH]; [reflexivity|].
  cbn [map]. by rewrite octet_signed, IH.
Qed.

Lemma signed_byte_range (l : list N) :
  Forall (fun o => o < 256) l ->
  Forall (fun b => (-128 <= b <= 255)%Z) (map signed l).
Proof.
  induction 1 as [|b l Hb _ IH]; [constructor|].
  cbn [map]. constructor; [|exact IH].
  unfold signed. destruct (N.ltb_spec b 128); lia.
Qed.

(** The hex text of an array of bytes: two lower-case digits apiece. *)
Lemma BytesToHex_pairs (bytes : list Z) :
  Forall (fun b => (-128 <= b <= 255)%Z) bytes ->
  BytesToHex bytes = flat_map (fun b => lower_hex_pair (unsigned_byte b)) bytes
  /\ length (BytesToHex bytes) = (2 * length bytes)%nat
  /\ Forall is_lower_hex (BytesToHex bytes).
Proof.
  intros Hall.
  assert (Heq : BytesToHex bytes
                = flat_map (fun b => lower_hex_pair (unsigned_byte b)) bytes).
  { unfold BytesToHex. rewrite join_empty_concat.
    induction Hall as [|b l Hb _ IH]; [reflexivity|].
    cbn [map concat flat_map]. by rewrite IH, BytesToHex_step_pair. }
  rewrite Heq. split; [done|]. split.
  - clear. induction bytes as [|b l IH]; [reflexivity|].
    cbn [flat_map]. rewrite length_app, IH. cbn [lower_hex_pair length]. lia.
  - clear Heq. induction Hall as [|b l Hb _ IH]; [constructor|].
    cbn [flat_map]. apply Forall_app. split; [|exact IH].
    by apply lower_hex_pair_digits.
Qed.


Lemma utf8_bound (s : jsstring) :
  code_units s -> Forall (fun o => o < 256) (utf8 s).
Proof.
  intros Hs. unfold utf8.
  pose proof (CodePoints_bound s Hs) as Hb.
  induction Hb as [|[c|] cps Hc _ IH]; [constructor| |];
    cbn [flat_map]; apply Forall_app; (split; [|exact IH]).
  - by apply utf8_octets_bound, Hc.
  - by repeat constructor.
Qed.

Lemma getBytes_octets (s : jsstring) :
  code_units s -> map octet (getBytes s) = utf8 s.
Proof. intros Hs. by apply map_octet_signed, utf8_bound. Qed.

(** X5. For every key, date stamp, region and service written in ASCII,
    [GetSignatureKey] returns the thirty-two bytes of the chain kDate,
    kRegion, kService, kSigning: the signed bytes the host hands over key
    the next stage as the octets they stand for.  It changes neither the
    credentials nor an object. *)
Theorem GetSignatureKey_chain (key : value) (dateStamp : jsstring)
    (regionName serviceName : value) (w : world) :
  ascii_string (ToString key) ->
  ascii_string dateStamp ->
  ascii_string (ToString regionName) ->
  ascii_string (ToString serviceName) ->
  let chain := signing_chain (ToString key) dateStamp (ToString regionName)
                             (ToString serviceName) in
  let run := GetSignatureKey key dateStamp regionName serviceName in
  value_of run w = Return (map signed chain)
  /\ length (map signed chain) = 32%nat
  /\ Forall (fun b => (-128 <= b <= 127)%Z) (map signed chain)
  /\ heap (world_of run w) = heap w
  /\ accessKey (world_of run w) = accessKey w
  /\ secretKey (world_of run w) = secretKey w.
Proof.
  intros Hk Hd Hr Hs chain run.
  assert (Hunits : forall s, ascii_string s -> code_units s).
  { intros s H. eapply Forall_impl; [exact H|]. intros c Hc. cbv beta in *. lia. }
  apply Hunits in Hk, Hd, Hr, Hs.
  assert (Hkey : code_units (js "AWS4" ++ ToString key)).
  { apply Forall_app. split; [|exact Hk]. by apply code_units_check. }
  split; [|split; [|split; [|by repeat split]]].
  - subst run. unfold value_of, GetSignatureKey. run_monad. cbn [fst]. f_equal.
    subst chain. unfold signing_chain.
    rewrite !getBytes_octets by (done || by apply code_units_check).
    rewrite !map_octet_signed by apply hmac_sha256_octets.
    reflexivity.
  - rewrite length_map. apply hmac_sha256_octets.
  - destruct (hmac_sha256_octets
                (SHA256.hmac_sha256
                   (SHA256.hmac_sha256
                      (SHA256.hmac_sha256 (utf8 (js "AWS4" ++ ToString key))
                         (utf8 dateStamp)) (utf8 (ToString regionName)))
                   (utf8 (ToString serviceName))) (utf8 (js "aws4_request")))
      as [_ Hb].
    subst chain. unfold signing_chain.
    induction Hb as [|b l Hb _ IH]; [constructor|].
    cbn [map]. constructor; [|exact IH].
    unfold signed. destruct (N.ltb_spec b 128); lia.
Qed.

Lemma ascii_check (s : jsstring) :
  forallb (fun c => c <? 128) s = true -> ascii_string s.
Proof.
  intros H. apply Forall_forall. intros c Hc. apply list_elem_of_In in Hc.
  rewrite forallb_forall in H. by apply N.ltb_lt, H.
Qed.

Lemma GetSignatureKey_chain_witness :
  value_of (GetSignatureKey (VStr (js "secret")) (js "20210704")
              (VStr (js "us-east-1")) (VStr (js "s3"))) fresh_world
  = Return (map signed (signing_chain (js "secret") (js "20210704")
                          (js "us-east-1") (js "s3"))).
Proof.
  apply (GetSignatureKey_chain (VStr (js "secret")) (js "20210704")
           (VStr (js "us-east-1")) (VStr (js "s3")) fresh_world);
    apply ascii_check; vm_compute; reflexivity.
Defined.

Lemma unsigned_byte_range (b : Z) :
  (-128 <= b <= 255)%Z -> (0 <= unsigned_byte b <= 255)%Z.
Proof. unfold unsigned_byte. destruct (Z.ltb_spec b 0); lia. Qed.

Lemma lower_hex_pair_inj (x y : Z) :
  (0 <= x <= 255)%Z -> (0 <= y <= 255)%Z ->
  lower_hex_pair x = lower_hex_pair y -> x = y.
Proof.
  intros Hx Hy. unfold lower_hex_pair. intros [= H1 H2].
  assert (Hd : forall d e : N, d < 16 -> e < 16 ->
                 digit_unit d = digit_unit e -> d = e).
  { intros d e Hd He. unfold digit_unit.
    destruct (N.ltb_spec d 10), (N.ltb_spec e 10); lia. }
  assert (Hq : (0 <= x / 16 < 16)%Z /\ (0 <= y / 16 < 16)%Z
               /\ (0 <= x mod 16 < 16)%Z /\ (0 <= y mod 16 < 16)%Z).
  { repeat split; try (apply Z.div_pos; lia);
      try (apply Z.div_lt_upper_bound; lia); apply Z.mod_pos_bound; lia. }
  destruct Hq as (Hxq & Hyq & Hxr & Hyr).
  apply Hd in H1; [|lia..]. apply Hd in H2; [|lia..].
  rewrite (Z.div_mod x 16), (Z.div_mod y 16) by lia. lia.
Qed.

(** X6. On arrays of bytes [BytesToHex] loses nothing but the choice
    between the signed and the unsigned reading of a byte: two arrays
    have the same hex text exactly when their bytes agree as unsigned
    values. *)
Theorem BytesToHex_injective (a b : list Z) :
  Forall (fun x => (-128 <= x <= 255)%Z) a ->
  Forall (fun x => (-128 <= x <= 255)%Z) b ->
  BytesToHex a = BytesToHex b <-> map unsigned_byte a = map unsigned_byte b.
Proof.
  intros Ha Hb.
  destruct (BytesToHex_pairs a Ha) as (-> & _ & _).
  destruct (BytesToHex_pairs b Hb) as (-> & _ & _).
  split.
  - revert b Hb. induction Ha as [|x a Hx _ IH]; intros b Hb.
    + destruct Hb as [|y b]; [done|]. discriminate.
    + destruct Hb as [|y b Hy Hb]; [discriminate|].
      cbn [flat_map map]. intros H.
      apply app_inj_1 in H as [Hp Hr]; [|reflexivity].
      apply lower_hex_pair_inj in Hp; try by apply unsigned_byte_range.
      rewrite Hp. f_equal. by apply IH.
  - intros H.
    assert (Hmap : forall l : list Z,
              flat_map (fun x => lower_hex_pair (unsigned_byte x)) l
              = flat_map lower_hex_pair (map unsigned_byte l)).
    { induction l as [|x l IH]; [reflexivity|].
      cbn [flat_map map]. by rewrite IH. }
    by rewrite !Hmap, H.
Qed.

Lemma BytesToHex_injective_witness :
  BytesToHex [(-1)%Z; 16%Z] = BytesToHex [255%Z; 16%Z].
Proof.
  apply (BytesToHex_injective [(-1)%Z; 16%Z] [255%Z; 16%Z]);
    [repeat constructor; lia | repeat constructor; lia | reflexivity].
Defined.

(** ** The host name for every value *)

(** X7. [GetHost] drops a falsy part together with its dot: the bucket
    and "s3" for the service "s3", otherwise the service and the region,
    before "amazonaws.com". *)
Theorem GetHost_all_values (service region bucket : value) :
  GetHost service region bucket
  = if loose_eq_str service (js "s3")
    then (if truthy bucket then ToString bucket ++ js "." else [])
           ++ js "s3.amazonaws.com"
    else (if truthy service then ToString service ++ js "." else [])
           ++ (if truthy region then ToString region ++ js "." else [])
           ++ js "amazonaws.com".
Proof.
  unfold GetHost.
  destruct (loose_eq_str service (js "s3")) eqn:E; cbn [List.filter];
    change (truthy VUndefined) with false;
    change (truthy (VStr (js "amazonaws.com"))) with true; cbv iota.
  - destruct service as [| | | | |s|]; try discriminate E.
    apply bool_decide_eq_true in E. subst s.
    change (truthy (VStr (js "s3"))) with true. cbv iota.
    destruct (truthy bucket); cbn [map ToString join].
    + by rewrite <- app_assoc.
    + reflexivity.
  - destruct (truthy service), (truthy region); cbn [map ToString join];
      rewrite <- ?app_assoc; reflexivity.
Qed.

(** ** Every outcome of [BuildRequest] *)



Lemma sorted_names (o : object) :
  StronglySorted names_lt (sort_keys (Object_keys o))
  /\ NoDup (sort_keys (Object_keys o))
  /\ (forall k, k ∈ sort_keys (Object_keys o) <-> is_Some (o !! k)).
Proof.
  assert (Hdup : NoDup (Object_keys o)) by apply NoDup_fst_map_to_list.
  split; [by apply sort_keys_sorted|]. split; [by rewrite sort_keys_perm|].
  intros k. rewrite sort_keys_perm. unfold Object_keys.
  rewrite list_elem_of_fmap. split.
  - intros [[k' v] [-> Hin]]. apply elem_of_map_to_list in Hin. by eexists.
  - intros [v Hv]. exists (k, v). split; [done|]. by apply elem_of_map_to_list.
Qed.






(** ** What a request depends on *)

(** X10. With the method POST, in any letter case, the parameters play
    no part: [BuildRequest] gives the same result and leaves the same
    world for any two parameter objects, none of them reaching the URL,
    the signature or the payload. *)
Theorem BuildRequest_post_ignores_params (service action : value)
    (params1 params2 : option object) (region method_arg payload_arg : value)
    (headers_arg : option loc) (uri bucket : value) (w : world) (m : jsstring) :
  or_default method_arg (VStr (js "GET")) = VStr m ->
  str_eqb (toLowerCase m) (js "post") = true ->
  BuildRequest service action params1 region method_arg payload_arg
               headers_arg uri bucket w
  = BuildRequest service action params2 region method_arg payload_arg
                 headers_arg uri bucket w.
Proof.
  intros Hm Hpost.
  destruct (truthy service) eqn:Hs;
    [|unfold BuildRequest; by rewrite Hs].
  destruct (truthy action) eqn:Ha;
    [|unfold BuildRequest; by rewrite Hs, Ha].
  assert (Hq : forall params,
            if str_eqb (toLowerCase m) (js "post") then @nil N = []
            else BuildRequest_query action params = Return [])
    by (intros params; by rewrite Hpost).
  pose proof (BuildRequest_returns service action params1 region method_arg
                payload_arg headers_arg uri bucket w m [] Hs Ha Hm (Hq params1))
    as H1.
  pose proof (BuildRequest_returns service action params2 region method_arg
                payload_arg headers_arg uri bucket w m [] Hs Ha Hm (Hq params2))
    as H2.
  cbv zeta in H1, H2. by rewrite H1, H2.
Qed.

Lemma BuildRequest_post_ignores_params_witness :
  BuildRequest (VStr (js "sqs")) (VStr (js "SendMessage"))
    (Some usage_params) VUndefined (VStr (js "Post")) (VStr (js "body"))
    None VUndefined VUndefined init_world
  = BuildRequest (VStr (js "sqs")) (VStr (js "SendMessage"))
      None VUndefined (VStr (js "Post")) (VStr (js "body"))
      None VUndefined VUndefined init_world.
Proof.
  apply (BuildRequest_post_ignores_params _ _ _ _ _ _ _ _ _ _ _ (js "Post"));
    vm_compute; reflexivity.
Defined.

(** X11. The credentials reach the request through the Authorization
    header only: with other credentials [BuildRequest] returns the same
    request (URL, method, payload, header object) and every header but
    Authorization has the same value. *)
Theorem BuildRequest_credentials_in_Authorization_only (service action : value)
    (params : option object) (region method_arg payload_arg : value)
    (headers_arg : option loc) (uri bucket : value) (w : world)
    (m query : jsstring) (access_key secret_key : value) :
  truthy service = true ->
  truthy action = true ->
  or_default method_arg (VStr (js "GET")) = VStr m ->
  (if str_eqb (toLowerCase m) (js "post") then query = []
   else BuildRequest_query action params = Return query) ->
  exists r w1 w2,
    BuildRequest service action params region method_arg payload_arg
                 headers_arg uri bucket w = (Return r, w1)
    /\ BuildRequest service action params region method_arg payload_arg
                    headers_arg uri bucket
                    (world_of (Init access_key secret_key) w) = (Return r, w2)
    /\ (forall k, k <> js "Authorization" ->
                  props (headers r) w1 !! k = props (headers r) w2 !! k)
    /\ (forall l, l <> headers r -> heap w1 !! l = heap w2 !! l).
Proof.
  intros Hs Ha Hm Hq.
  pose proof (BuildRequest_returns service action params region method_arg
                payload_arg headers_arg uri bucket w m query Hs Ha Hm Hq) as H1.
  pose proof (BuildRequest_returns service action params region method_arg
                payload_arg headers_arg uri bucket
                (world_of (Init access_key secret_key) w) m query Hs Ha Hm Hq)
    as H2.
  cbv zeta in H1, H2.
  assert (Href : header_ref headers_arg (world_of (Init access_key secret_key) w)
                 = header_ref headers_arg w) by by destruct headers_arg.
  assert (Hbase : header_base headers_arg (world_of (Init access_key secret_key) w)
                  = header_base headers_arg w) by by destruct headers_arg.
  rewrite Href, Hbase in H2.
  change (now (world_of (Init access_key secret_key) w)) with (now w) in H2.
  change (heap (world_of (Init access_key secret_key) w)) with (heap w) in H2.
  eexists _, _, _. split; [exact H1|]. split; [exact H2|].
  cbn [headers heap]. rewrite !props_insert. split.
  - intros k Hk. destruct (decide (k = js "Host")) as [->|Hh].
    + by rewrite !lookup_delete_eq.
    + rewrite !lookup_delete_ne by done.
      by rewrite !(lookup_insert_ne _ (js "Authorization")) by congruence.
  - intros l Hl. by rewrite !lookup_insert_ne.
Qed.

Lemma BuildRequest_credentials_in_Authorization_only_witness :
  exists r w1 w2,
    BuildRequest (VStr (js "ec2")) (VStr (js "DescribeInstances")) None
      VUndefined VUndefined VUndefined None VUndefined VUndefined fresh_world
    = (Return r, w1)
    /\ BuildRequest (VStr (js "ec2")) (VStr (js "DescribeInstances")) None
         VUndefined VUndefined VUndefined None VUndefined VUndefined
         (world_of (Init (VStr (js "AKIDEXAMPLE")) (VStr (js "secret")))
                   fresh_world)
       = (Return r, w2).
Proof.
  destruct (BuildRequest_credentials_in_Authorization_only (VStr (js "ec2"))
              (VStr (js "DescribeInstances")) None VUndefined VUndefined
              VUndefined None VUndefined VUndefined fresh_world
              (js "GET") (js "Action=DescribeInstances")
              (VStr (js "AKIDEXAMPLE")) (VStr (js "secret")))
    as (r & w1 & w2 & H1 & H2 & _);
    [reflexivity | reflexivity | reflexivity | vm_compute; reflexivity |].
  exists r, w1, w2. split; [exact H1 | exact H2].
Defined.

(** ** The headers that are signed and sent *)


(** X12. For a header object whose names are ASCII, the canonical header
    block has one "name:value" line per own name and the signed-header
    list joins the names with ";" and no separator at the end; in both
    the names are lower-cased, each appears once, and they stand in the
    ascending code-unit order of the names as written. *)
Theorem BuildRequest_canon_shape (hs : object) :
  (forall k, is_Some (hs !! k) -> ascii_string k) ->
  let names := sort_keys (Object_keys hs) in
  BuildRequest_canon hs
  = (flat_map (fun h => toLowerCase h ++ js ":" ++ ToString (get_prop hs h) ++ nl)
              names,
     join (js ";") (map toLowerCase names))
  /\ StronglySorted names_lt names
  /\ NoDup names
  /\ (forall k, k ∈ names <-> is_Some (hs !! k)).
Proof.
  intros Hascii names. split; [apply BuildRequest_canon_sorted_then_lowered|].
  apply sorted_names.
Qed.

Lemma caller_headers_ascii (k : jsstring) :
  is_Some (caller_headers !! k) -> ascii_string k.
Proof.
  unfold caller_headers.
  rewrite !lookup_insert_is_Some', lookup_empty, is_Some_alt.
  intros [<-|[<-|[<-|[]]]]; by apply ascii_check.
Qed.

Lemma BuildRequest_canon_shape_witness :
  BuildRequest_canon caller_headers
  = (flat_map (fun h => toLowerCase h ++ js ":"
                          ++ ToString (get_prop caller_headers h) ++ nl)
              (sort_keys (Object_keys caller_headers)),
     join (js ";") (map toLowerCase (sort_keys (Object_keys caller_headers)))).
Proof.
  apply (BuildRequest_canon_shape caller_headers caller_headers_ascii).
Defined.

(** X13. When the names of the caller's headers are ASCII, the
    Authorization header of a returned request names the algorithm, the
    access key, the scope (the first eight characters of the timestamp,
    the region, the service, "aws4_request"), the signed headers and the
    signature.  The signed headers are the caller's names and Host,
    X-Amz-Date, X-Amz-Target and X-Amz-Content-SHA256, lower-cased; the
    signature is sixty-four lower-case hex digits. *)
Theorem BuildRequest_Authorization_format (service action : value)
    (params : option object) (region method_arg payload_arg : value)
    (headers_arg : option loc) (uri bucket : value) (w : world)
    (m query : jsstring) :
  truthy service = true ->
  truthy action = true ->
  or_default method_arg (VStr (js "GET")) = VStr m ->
  (if str_eqb (toLowerCase m) (js "post") then query = []
   else BuildRequest_query action params = Return query) ->
  (forall k, is_Some (header_base headers_arg w !! k) -> ascii_string k) ->
  exists r w' names signature,
    BuildRequest service action params region method_arg payload_arg
                 headers_arg uri bucket w = (Return r, w')
    /\ props (headers r) w' !! js "Authorization"
       = Some (VStr (js "AWS4-HMAC-SHA256" ++ js " Credential="
                       ++ ToString (accessKey w) ++ js "/"
                       ++ (substring0 8 (now w) ++ js "/"
                             ++ ToString (or_default region AWS_DEFAULT_REGION)
                             ++ js "/" ++ ToString service ++ js "/aws4_request")
                       ++ js ", SignedHeaders="
                       ++ join (js ";") (map toLowerCase names)
                       ++ js ",Signature=" ++ signature))
    /\ StronglySorted names_lt names
    /\ (forall k, k ∈ names
                  <-> k ∈ mandatory_headers
                      \/ is_Some (header_base headers_arg w !! k))
    /\ length signature = 64%nat
    /\ Forall is_lower_hex signature.
Proof.
  intros Hs Ha Hm Hq Hascii.
  pose proof (BuildRequest_returns service action params region method_arg
                payload_arg headers_arg uri bucket w m query Hs Ha Hm Hq) as Hrun.
  cbv beta zeta in Hrun.
  set (merged := <[js "X-Amz-Content-SHA256" := _]> _) in Hrun.
  set (key := map signed (SHA256.hmac_sha256 _ (map octet (getBytes (js "aws4_request")))))
    in Hrun.
  set (signature := BytesToHex (map signed (SHA256.hmac_sha256 (map octet key) _)))
    in Hrun.
  eexists _, _. exists (sort_keys (Object_keys merged)), signature.
  split; [exact Hrun|]. cbn [headers]. rewrite props_insert.
  rewrite lookup_delete_ne by js_neq. rewrite lookup_insert_eq.
  rewrite BuildRequest_canon_sorted_then_lowered. cbn [snd].
  split; [reflexivity|].
  destruct (sorted_names merged) as (Hsorted & _ & Hin).
  split; [exact Hsorted|]. split.
  - intros k. rewrite Hin. subst merged. unfold mandatory_headers.
    rewrite !lookup_insert_is_Some', !elem_of_cons, elem_of_nil.
    intuition congruence.
  - subst signature.
    destruct (hmac_sha256_octets (map octet key)
                (map octet (getBytes
                   (js "AWS4-HMAC-SHA256" ++ nl ++ now w ++ nl
                      ++ (substring0 8 (now w) ++ js "/"
                            ++ ToString (or_default region AWS_DEFAULT_REGION)
                            ++ js "/" ++ ToString service ++ js "/aws4_request")
                      ++ nl
                      ++ BytesToHex (map signed (SHA256.sha256 (utf8
                           (m ++ nl ++ ToString (or_default uri (VStr (js "/")))
                              ++ nl ++ query ++ nl
                              ++ (BuildRequest_canon merged).1 ++ nl
                              ++ (BuildRequest_canon merged).2 ++ nl
                              ++ BytesToHex (map signed (SHA256.sha256 (utf8
                                   (ToString (body_of payload_arg)))))))))))))
      as [Hl Hb].
    destruct (BytesToHex_pairs _ (signed_byte_range _ Hb)) as (_ & Hlen & Hhex).
    split; [|exact Hhex]. by rewrite Hlen, length_map, Hl.
Qed.

Lemma BuildRequest_Authorization_format_witness :
  exists r w' (signature : jsstring),
    BuildRequest (VStr (js "ec2")) (VStr (js "DescribeInstances")) None
      VUndefined VUndefined VUndefined (Some 1%positive) VUndefined VUndefined
      caller_world = (Return r, w')
    /\ length signature = 64%nat.
Proof.
  destruct (BuildRequest_Authorization_format (VStr (js "ec2"))
              (VStr (js "DescribeInstances")) None VUndefined VUndefined
              VUndefined (Some 1%positive) VUndefined VUndefined caller_world
              (js "GET") (js "Action=DescribeInstances"))
    as (r & w' & names & signature & Hrun & _ & _ & _ & Hlen & _);
    [reflexivity | reflexivity | reflexivity | vm_compute; reflexivity
     | exact caller_headers_ascii |].
  exists r, w', signature. split; [exact Hrun | exact Hlen].
Defined.

(** ** Defaults *)

(** X14. With a service other than "s3" and nothing but the action
    besides, [BuildRequest] returns a GET for
    https://service.us-east-1.amazonaws.com/?Action=action with an empty
    payload and muted HTTP exceptions; for "s3" the host is
    DefaultS3Bucket.s3.amazonaws.com. *)
Theorem BuildRequest_defaults (service : jsstring) (action : value) (w : world) :
  service <> [] ->
  truthy action = true ->
  exists r w',
    BuildRequest (VStr service) action None VUndefined VUndefined VUndefined
                 None VUndefined VUndefined w = (Return r, w')
    /\ method r = js "GET"
    /\ payload r = VStr []
    /\ muteHttpExceptions r = true
    /\ url r = js "https://"
                  ++ (if str_eqb service (js "s3")
                      then js "DefaultS3Bucket" ++ js "." ++ js "s3"
                      else service ++ js "." ++ js "us-east-1")
                  ++ js "." ++ js "amazonaws.com"
                  ++ js "/" ++ js "?" ++ js "Action=" ++ ToString action.
Proof.
  intros Hne Ha.
  assert (Hs : truthy (VStr service) = true).
  { cbn [truthy]. unfold str_eqb. by rewrite bool_decide_eq_false_2. }
  pose proof (BuildRequest_returns (VStr service) action None VUndefined
                VUndefined VUndefined None VUndefined VUndefined w (js "GET")
                (js "Action=" ++ ToString action) Hs Ha eq_refl eq_refl) as Hrun.
  cbv beta zeta in Hrun. eexists _, _. split; [exact Hrun|].
  cbn [method payload muteHttpExceptions url].
  split; [reflexivity|]. split; [reflexivity|]. split; [reflexivity|].
  change (str_eqb (toLowerCase (js "GET")) (js "post")) with false. cbv iota.
  change (or_default VUndefined AWS_DEFAULT_REGION) with (VStr (js "us-east-1")).
  change (or_default VUndefined AWS_DEFAULT_BUCKET) with (VStr (js "DefaultS3Bucket")).
  change (ToString (or_default VUndefined (VStr (js "/")))) with (js "/").
  unfold GetHost. cbn [loose_eq_str List.filter].
  destruct (str_eqb service (js "s3")) eqn:E;
    change (truthy VUndefined) with false;
    change (truthy (VStr (js "amazonaws.com"))) with true;
    change (truthy (VStr (js "us-east-1"))) with true;
    change (truthy (VStr (js "DefaultS3Bucket"))) with true;
    rewrite Hs; cbv iota; cbn [map ToString join].
  - apply bool_decide_eq_true in E. subst service.
    by rewrite <- !app_assoc.
  - by rewrite <- !app_assoc.
Qed.

Lemma BuildRequest_defaults_witness :
  exists r w',
    BuildRequest (VStr (js "sqs")) (VStr (js "ListQueues")) None VUndefined
      VUndefined VUndefined None VUndefined VUndefined fresh_world
    = (Return r, w')
    /\ url r = js "https://sqs.us-east-1.amazonaws.com/?Action=ListQueues".
Proof.
  destruct (BuildRequest_defaults (js "sqs") (VStr (js "ListQueues")) fresh_world)
    as (r & w' & Hrun & _ & _ & _ & Hurl); [discriminate | reflexivity |].
  exists r, w'. split; [exact Hrun|]. rewrite Hurl. vm_compute. reflexivity.
Defined.



(** * The BigQuery helpers *)

Lemma split_at_app (c : N) (a b : jsstring) :
  c ∉ a -> split_at c (a ++ c :: b) = Some (a, b).
Proof.
  induction a as [|x a IH]; intros Hc; cbn [app split_at].
  - by rewrite N.eqb_refl.
  - apply not_elem_of_cons in Hc as [Hx Ha].
    destruct (N.eqb_spec x c); [congruence|]. by rewrite IH.
Qed.

Lemma split_at_Some (c : N) (s a b : jsstring) :
  split_at c s = Some (a, b) -> s = a ++ c :: b /\ c ∉ a.
Proof.
  revert a. induction s as [|x s IH]; intros a; cbn [split_at]; [done|].
  destruct (N.eqb_spec x c) as [->|Hx].
  - intros [= <- <-]. split; [done|]. apply not_elem_of_nil.
  - destruct (split_at c s) as [[a' b']|]; [|done].
    intros [= <- <-]. destruct (IH a' eq_refl) as [-> Ha].
    split; [done|]. apply not_elem_of_cons. split; [congruence | done].
Qed.

Lemma split_at_None (c : N) (s : jsstring) :
  c ∉ s -> split_at c s = None.
Proof.
  induction s as [|x s IH]; intros Hc; cbn [split_at]; [done|].
  apply not_elem_of_cons in Hc as [Hx Hs].
  destruct (N.eqb_spec x c); [congruence|]. by rewrite IH.
Qed.

Lemma not_elem_check (c : N) (s : jsstring) :
  forallb (fun x => negb (x =? c)) s = true -> c ∉ s.
Proof.
  intros H Hc. rewrite forallb_forall in H.
  apply list_elem_of_In, H in Hc. by rewrite N.eqb_refl in Hc.
Qed.

Lemma is_empty_false (s : jsstring) : s <> [] -> is_empty s = false.
Proof. by destruct s. Qed.

(** X16. A full job id, written project:location.job as the source
    notes, is taken apart again by [parseJobRef]: for a project without a
    colon, a location without a dot (neither empty) and a job id without
    a line terminator it returns just these three. *)
Theorem parseJobRef_full_id (BQ_PROJECT_ID project place job : jsstring) :
  project <> [] -> 58 ∉ project ->
  place <> [] -> 46 ∉ place ->
  forallb (fun c => negb (line_terminator c)) job = true ->
  parseJobRef BQ_PROJECT_ID
    (JobIdString (project ++ js ":" ++ place ++ js "." ++ job))
  = {| projectId := project; location := Some place; jobId := job |}.
Proof.
  intros Hp Hpc Hl Hlc Hj. unfold parseJobRef, match_full_id.
  change (js ":" ++ place ++ js "." ++ job) with (58 :: place ++ 46 :: job).
  rewrite split_at_app by done. rewrite is_empty_false by done.
  rewrite split_at_app by done. rewrite is_empty_false by done.
  by rewrite Hj.
Qed.

Lemma parseJobRef_full_id_witness :
  parseJobRef (js "default")
    (JobIdString (js "my-project" ++ js ":" ++ js "US" ++ js "." ++ js "job_1.a"))
  = {| projectId := js "my-project"; location := Some (js "US");
       jobId := js "job_1.a" |}.
Proof.
  apply parseJobRef_full_id;
    [discriminate | by apply not_elem_check | discriminate
     | by apply not_elem_check | reflexivity].
Defined.

(** X17. What [parseJobRef] makes of a string loses nothing: when it
    finds a location, the string is project:location.job of the parts
    returned, with a project free of colons and a location free of dots,
    neither empty; otherwise the string is the job id, whole, under the
    default project.  A string without a colon or without a dot is always
    taken the second way. *)
Theorem parseJobRef_parts (BQ_PROJECT_ID s : jsstring) :
  match parseJobRef BQ_PROJECT_ID (JobIdString s) with
  | {| projectId := p; location := Some l; jobId := j |} =>
      s = p ++ js ":" ++ l ++ js "." ++ j
      /\ p <> [] /\ (58 ∉ p) /\ l <> [] /\ (46 ∉ l)
  | {| projectId := p; location := None; jobId := j |} =>
      p = BQ_PROJECT_ID /\ j = s
  end
  /\ (58 ∉ s \/ 46 ∉ s ->
      parseJobRef BQ_PROJECT_ID (JobIdString s)
      = {| projectId := BQ_PROJECT_ID; location := None; jobId := s |}).
Proof.
  unfold parseJobRef, match_full_id. split.
  - destruct (split_at 58 s) as [[p rest]|] eqn:E1; [|done].
    apply split_at_Some in E1 as [-> Hp].
    destruct p as [|x p]; [done|]. cbn [is_empty].
    destruct (split_at 46 rest) as [[l j]|] eqn:E2; [|done].
    apply split_at_Some in E2 as [-> Hl].
    destruct l as [|y l]; [done|]. cbn [is_empty].
    destruct (forallb _ j); [|done].
    repeat split; done.
  - intros [Hc|Hd].
    + by rewrite split_at_None.
    + destruct (split_at 58 s) as [[p rest]|] eqn:E1; [|done].
      apply split_at_Some in E1 as [-> Hp].
      destruct (is_empty p); [done|].
      rewrite split_at_None; [done|].
      intros Hin. apply Hd. apply elem_of_app. right. by right.
Qed.

(** ** Download links *)

Lemma strip_gs (rest : jsstring) :
  strip_prefix (js "gs://") (js "gs://" ++ rest) = Some rest.
Proof. reflexivity. Qed.

Lemma take_until_all (c : N) (s : jsstring) : c ∉ s -> take_until c s = s.
Proof.
  induction s as [|x s IH]; intros Hc; cbn [take_until]; [done|].
  apply not_elem_of_cons in Hc as [Hx Hs].
  destruct (N.eqb_spec x c); [congruence|]. by rewrite IH.
Qed.

Lemma no_star (s : jsstring) : 42 ∉ s -> existsb (N.eqb 42) s = false.
Proof.
  induction s as [|x s IH]; intros Hc; cbn [existsb]; [done|].
  apply not_elem_of_cons in Hc as [Hx Hs].
  destruct (N.eqb_spec 42 x); [congruence|]. by rewrite IH.
Qed.

Lemma destination_links_object (listing : jsstring -> list jsstring)
    (uri : jsstring) :
  object_uri uri ->
  destination_links listing uri
  = Return [js "https://storage.cloud.google.com/" ++ drop 5 uri].
Proof.
  intros (bucket & path & -> & Hb & Hbs & Hba & Hp & Hpa).
  unfold destination_links, match_gs_uri. rewrite strip_gs.
  change (js "/" ++ path) with (47 :: path).
  rewrite split_at_app by done. rewrite take_until_all by done.
  rewrite !is_empty_false by done. cbn [orb].
  rewrite no_star; [reflexivity|].
  apply not_elem_of_app. split; [by apply not_elem_check|].
  apply not_elem_of_app. split; [done|].
  apply not_elem_of_cons. by split.
Qed.

(** X18. For a finished job whose destination URIs each name one object
    (gs://bucket/path, no asterisk) [getDownloadLinks] returns, in the
    same order, each URI with "gs://" replaced by
    "https://storage.cloud.google.com/", and asks the storage service
    nothing: the listing plays no part. *)
Theorem getDownloadLinks_object_uris (BQ_PROJECT_ID : jsstring)
    (Jobs_get : jsstring -> jsstring -> option jsstring -> Job)
    (listing : jsstring -> list jsstring) (arg : jobArg)
    (uris : list jsstring) :
  state (getJob BQ_PROJECT_ID Jobs_get arg) = js "DONE" ->
  destinationUris (getJob BQ_PROJECT_ID Jobs_get arg) = Some uris ->
  Forall object_uri uris ->
  getDownloadLinks BQ_PROJECT_ID Jobs_get listing arg
  = Return (Some (map (fun uri => js "https://storage.cloud.google.com/"
                                     ++ drop 5 uri) uris)).
Proof.
  intros Hstate Huris Hall. unfold getDownloadLinks.
  rewrite Hstate, Huris. change (str_eqb (js "DONE") (js "DONE")) with true.
  cbn [negb].
  assert (Hfold : forall acc,
    fold_left
      (fun acc destinationUri =>
         match acc with
         | Return urls =>
             match destination_links listing destinationUri with
             | Return links => Return (urls ++ links)
             | Throw e => Throw e
             end
         | Throw e => Throw e
         end) uris (Return acc)
    = Return (acc ++ map (fun uri => js "https://storage.cloud.google.com/"
                                        ++ drop 5 uri) uris)).
  { clear Huris.
    induction Hall as [|uri uris Huri _ IH]; intros acc; cbn [fold_left map].
    - by rewrite app_nil_r.
    - rewrite (destination_links_object listing uri Huri), IH.
      by rewrite <- app_assoc. }
  by rewrite Hfold.
Qed.

Lemma getDownloadLinks_object_uris_witness :
  getDownloadLinks (js "default")
    (host_with (done_job [js "gs://" ++ js "bkt" ++ js "/" ++ js "a/file.csv"]))
    (fun _ => []) (JobIdString (js "job_1"))
  = Return (Some [js "https://storage.cloud.google.com/bkt/a/file.csv"]).
Proof.
  apply (getDownloadLinks_object_uris (js "default")
           (host_with (done_job [js "gs://" ++ js "bkt" ++ js "/" ++ js "a/file.csv"]))
           (fun _ => []) (JobIdString (js "job_1"))
           [js "gs://" ++ js "bkt" ++ js "/" ++ js "a/file.csv"]);
    [reflexivity | reflexivity |].
  constructor; [|constructor].
  exists (js "bkt"), (js "a/file.csv").
  split; [reflexivity|].
  split; [discriminate|]. split; [by apply not_elem_check|].
  split; [by apply not_elem_check|]. split; [discriminate|].
  by apply not_elem_check.
Defined.

Lemma take_until_app (c : N) (a b : jsstring) :
  c ∉ a -> take_until c (a ++ c :: b) = a.
Proof.
  induction a as [|x a IH]; intros Hc; cbn [app take_until].
  - by rewrite N.eqb_refl.
  - apply not_elem_of_cons in Hc as [Hx Ha].
    destruct (N.eqb_spec x c); [congruence|]. by rewrite IH.
Qed.

Lemma has_star (a b : jsstring) : existsb (N.eqb 42) (a ++ 42 :: b) = true.
Proof. rewrite existsb_app. cbn [existsb]. by rewrite orb_true_r. Qed.

(** X19. The destination URI [createExport] writes is one
    [getDownloadLinks] understands: for a bucket without a slash and a
    job id without an asterisk, the request inserted is an extract of the
    job's destination table to one URI, and for that URI the links are
    the objects the storage service lists in the bucket under the prefix
    "export/<job id>__", each as
    https://storage.cloud.google.com/<bucket>/<name>. *)
Theorem createExport_links (BQ_PROJECT_ID GS_EXPORT_BUCKET : jsstring)
    (Jobs_get : jsstring -> jsstring -> option jsstring -> Job)
    (Jobs_insert : ExtractRequest -> jsstring -> Job)
    (listing : jsstring -> list jsstring) (arg : jobArg)
    (table : TableReference) (b p : jsstring) :
  let job := getJob BQ_PROJECT_ID Jobs_get arg in
  destinationTable job = Some table ->
  GS_EXPORT_BUCKET <> [] ->
  47 ∉ GS_EXPORT_BUCKET ->
  42 ∉ job_jobId job ->
  encodeURIComponent GS_EXPORT_BUCKET = Return b ->
  encodeURIComponent (js "export/" ++ job_jobId job ++ js "__") = Return p ->
  exists request uri,
    createExport BQ_PROJECT_ID GS_EXPORT_BUCKET Jobs_get Jobs_insert arg
    = Return (Jobs_insert request BQ_PROJECT_ID)
    /\ jobType request = js "extract"
    /\ sourceTable request = table
    /\ extract_destinationUris request = [uri]
    /\ destination_links listing uri
       = Return (map (fun name => js "https://storage.cloud.google.com/"
                                     ++ GS_EXPORT_BUCKET ++ js "/" ++ name)
                     (listing (js "https://storage.googleapis.com/storage/v1/b/"
                                  ++ b ++ js "/o?prefix=" ++ p))).
Proof.
  intros job Htable Hne Hslash Hstar Hb Hp.
  eexists _, _. unfold createExport. fold job. rewrite Htable.
  split; [reflexivity|]. cbn [jobType sourceTable extract_destinationUris].
  split; [reflexivity|]. split; [by destruct table|]. split; [reflexivity|].
  unfold destination_links, match_gs_uri. rewrite strip_gs.
  change (js "/export/" ++ job_jobId job ++ js "__*.csv")
    with (47 :: (js "export/" ++ job_jobId job ++ js "__*.csv")).
  rewrite split_at_app by done.
  assert (Hparts : js "export/" ++ job_jobId job ++ js "__*.csv"
                   = (js "export/" ++ job_jobId job ++ js "__") ++ 42 :: js ".csv").
  { by rewrite <- !app_assoc. }
  rewrite Hparts, take_until_app.
  2: { apply not_elem_of_app. split; [by apply not_elem_check|].
       apply not_elem_of_app. split; [done | by apply not_elem_check]. }
  rewrite is_empty_false by done.
  rewrite (is_empty_false (js "export/" ++ job_jobId job ++ js "__"))
    by (intros H; apply app_eq_nil in H as [H _]; discriminate H).
  cbn [orb].
  assert (Hhas : existsb (N.eqb 42)
                   (js "gs://" ++ GS_EXPORT_BUCKET
                      ++ 47 :: (js "export/" ++ job_jobId job ++ js "__")
                      ++ 42 :: js ".csv") = true).
  { rewrite !app_comm_cons, !app_assoc. apply has_star. }
  rewrite Hhas. cbn [negb].
  by rewrite Hb, Hp.
Qed.

Lemma createExport_links_witness :
  createExport (js "my-project") (js "bkt") (host_with query_job)
    (fun _ _ => query_job) (JobIdString (js "job_1"))
  = Return query_job.
Proof.
  destruct (createExport_links (js "my-project") (js "bkt") (host_with query_job)
              (fun _ _ => query_job) (fun _ => []) (JobIdString (js "job_1"))
              {| datasetId := js "_cache"; tableProjectId := js "my-project";
                 tableId := js "anon1" |}
              (js "bkt") (js "export%2Fjob_1__"))
    as (request & uri & Hrun & _);
    [reflexivity | discriminate | by apply not_elem_check
     | by apply not_elem_check | reflexivity | reflexivity |].
  exact Hrun.
Defined.

Lemma fold_links_throw (listing : jsstring -> list jsstring)
    (uris : list jsstring) (e : error) :
  fold_left
    (fun acc destinationUri =>
       match acc with
       | Return urls =>
           match destination_links listing destinationUri with
           | Return links => Return (urls ++ links)
           | Throw e => Throw e
           end
       | Throw e => Throw e
       end) uris (Throw e)
  = Throw e.
Proof. induction uris as [|uri uris IH]; [reflexivity | exact IH]. Qed.

(** X20. A destination URI whose object path is empty or begins with
    the asterisk (an export to the root of a bucket, gs://bucket/*.csv)
    is not recognised: [getDownloadLinks] throws "Unrecognized URI: " and
    the URI, also when URIs before it gave links. *)
Theorem getDownloadLinks_rejects_root_wildcard (BQ_PROJECT_ID : jsstring)
    (Jobs_get : jsstring -> jsstring -> option jsstring -> Job)
    (listing : jsstring -> list jsstring) (arg : jobArg)
    (before after : list jsstring) (bucket tail : jsstring) :
  state (getJob BQ_PROJECT_ID Jobs_get arg) = js "DONE" ->
  destinationUris (getJob BQ_PROJECT_ID Jobs_get arg)
  = Some (before ++ (js "gs://" ++ bucket ++ js "/" ++ tail) :: after) ->
  Forall object_uri before ->
  47 ∉ bucket ->
  tail = [] \/ (exists rest, tail = 42 :: rest) ->
  getDownloadLinks BQ_PROJECT_ID Jobs_get listing arg
  = Throw (Error (js "Unrecognized URI: "
                     ++ js "gs://" ++ bucket ++ js "/" ++ tail)).
Proof.
  intros Hstate Huris Hbefore Hslash Htail. unfold getDownloadLinks.
  rewrite Hstate, Huris. change (str_eqb (js "DONE") (js "DONE")) with true.
  cbn [negb]. clear Huris Hstate. rewrite fold_left_app.
  assert (Hfold : forall acc, exists urls,
    fold_left
      (fun acc destinationUri =>
         match acc with
         | Return urls =>
             match destination_links listing destinationUri with
             | Return links => Return (urls ++ links)
             | Throw e => Throw e
             end
         | Throw e => Throw e
         end) before (Return acc) = Return urls).
  { induction Hbefore as [|uri uris Huri _ IH]; intros acc; cbn [fold_left].
    - by eexists.
    - rewrite (destination_links_object listing uri Huri). apply IH. }
  destruct (Hfold []) as [urls ->]. cbn [fold_left].
  assert (Hbad : destination_links listing (js "gs://" ++ bucket ++ js "/" ++ tail)
                 = Throw (Error (js "Unrecognized URI: "
                                    ++ js "gs://" ++ bucket ++ js "/" ++ tail))).
  { unfold destination_links, match_gs_uri. rewrite strip_gs.
    change (js "/" ++ tail) with (47 :: tail).
    rewrite split_at_app by done.
    assert (Hempty : take_until 42 tail = []).
    { destruct Htail as [->|[rest ->]]; reflexivity. }
    rewrite Hempty. cbn [is_empty]. by rewrite orb_true_r. }
  rewrite Hbad. by rewrite fold_links_throw.
Qed.

Lemma getDownloadLinks_rejects_root_wildcard_witness :
  getDownloadLinks (js "default")
    (host_with (done_job [js "gs://" ++ js "bkt" ++ js "/" ++ js "*.csv"]))
    (fun _ => []) (JobIdString (js "job_1"))
  = Throw (Error (js "Unrecognized URI: "
                     ++ js "gs://" ++ js "bkt" ++ js "/" ++ js "*.csv")).
Proof.
  apply (getDownloadLinks_rejects_root_wildcard (js "default")
           (host_with (done_job [js "gs://" ++ js "bkt" ++ js "/" ++ js "*.csv"]))
           (fun _ => []) (JobIdString (js "job_1")) [] [] (js "bkt") (js "*.csv"));
    [reflexivity | reflexivity | constructor | by apply not_elem_check |].
  right. by exists (js ".csv").
Defined.

(** X21. [getJob] asks the host for the job under the project and the
    location its id carries: a full id project:location.job is looked up
    as that job in that project with the location passed on, a string
    without a colon as a job of the default project with no location, and
    in a job reference object an empty location counts as none. *)
Theorem getJob_location (BQ_PROJECT_ID : jsstring)
    (Jobs_get : jsstring -> jsstring -> option jsstring -> Job)
    (project place job : jsstring) :
  project <> [] -> 58 ∉ project ->
  place <> [] -> 46 ∉ place ->
  forallb (fun c => negb (line_terminator c)) job = true ->
  getJob BQ_PROJECT_ID Jobs_get
    (JobIdString (project ++ js ":" ++ place ++ js "." ++ job))
  = Jobs_get project job (Some place)
  /\ (forall s, 58 ∉ s ->
        getJob BQ_PROJECT_ID Jobs_get (JobIdString s)
        = Jobs_get BQ_PROJECT_ID s None)
  /\ getJob BQ_PROJECT_ID Jobs_get
       (JobRefObject {| projectId := project; location := Some [];
                        jobId := job |})
     = Jobs_get project job None.
Proof.
  intros Hp Hpc Hl Hlc Hj. split; [|split; [|reflexivity]].
  - unfold getJob, parseJobRef, match_full_id.
    change (js ":" ++ place ++ js "." ++ job) with (58 :: place ++ 46 :: job).
    rewrite split_at_app by done. rewrite is_empty_false by done.
    rewrite split_at_app by done. rewrite is_empty_false by done.
    rewrite Hj. by destruct place.
  - intros s Hs. unfold getJob, parseJobRef, match_full_id.
    by rewrite split_at_None.
Qed.

Lemma getJob_location_witness :
  getJob (js "default") (fun p j l => done_job [p; j; default [] l])
    (JobIdString (js "my-project" ++ js ":" ++ js "US" ++ js "." ++ js "job_1"))
  = done_job [js "my-project"; js "job_1"; js "US"].
Proof.
  apply (getJob_location (js "default")
           (fun p j l => done_job [p; j; default [] l])
           (js "my-project") (js "US") (js "job_1"));
    [discriminate | by apply not_elem_check | discriminate
     | by apply not_elem_check | reflexivity].
Defined.

(** ** The escapes of [UrlEncode] *)

Lemma encode_points_tokens (cps : list (option N)) (out : jsstring) :
  Forall (fun cp : option N => forall c, cp = Some c -> c < 1114112) cps ->
  encode_points cps = Return out ->
  exists tokens, out = concat tokens /\ Forall pre_token tokens.
Proof.
  intros Hb. revert out.
  induction Hb as [|[c|] cps Hc _ IH]; intros out; cbn [encode_points].
  - intros [= <-]. by exists [].
  - destruct (encode_points cps) as [r|]; [|done]. intros [= <-].
    destruct (IH r eq_refl) as (tokens & -> & Htok).
    destruct (uriUnescaped c) eqn:E.
    + exists ([c] :: tokens). split; [reflexivity|].
      constructor; [|exact Htok]. left. by exists c.
    + exists (map percent (utf8_octets c) ++ tokens). split.
      * by rewrite concat_app, flat_map_concat_map.
      * apply Forall_app. split; [|exact Htok].
        pose proof (utf8_octets_bound c (Hc c eq_refl)) as Ho.
        induction Ho as [|o os Ho _ IHo]; [constructor|].
        cbn [map]. constructor; [|exact IHo]. right. by exists o.
  - done.
Qed.

Lemma escape_pre_token (t : jsstring) :
  pre_token t -> url_token (flat_map escape_reserved t).
Proof.
  intros [(c & -> & Hc)|(o & Ho & ->)].
  - cbn [flat_map]. rewrite app_nil_r. unfold escape_reserved.
    destruct (aws_reserved c) eqn:Er.
    + right. apply aws_reserved_cases in Er.
      destruct Er as [->|[->|[->|[->| ->]]]];
        eexists _, _; (split; [vm_compute; reflexivity|]); by split.
    + left. exists c. split; [done|].
      unfold uriUnescaped in Hc. unfold aws_reserved in Er.
      unfold aws_unreserved, alnum.
      change (js "-_.!~*'()") with [45; 95; 46; 33; 126; 42; 39; 40; 41] in Hc.
      change (js "!'()*") with [33; 39; 40; 41; 42] in Er.
      change (js "-_.~") with [45; 95; 46; 126].
      apply bool_decide_eq_false in Er.
      rewrite !orb_true_iff, !bool_decide_eq_true, !elem_of_cons, !elem_of_nil in *.
      tauto.
  - assert (Hall : forallb
              (fun o => bool_decide (flat_map escape_reserved (percent o) = percent o)
                        && hex_digit (upper_digit (o / 16))
                        && hex_digit (upper_digit (o mod 16)))
              (map N.of_nat (seq 0 256)) = true)
      by (vm_compute; reflexivity).
    rewrite forallb_forall in Hall.
    specialize (Hall o (octet_range_complete o Ho)).
    rewrite !andb_true_iff, bool_decide_eq_true in Hall.
    destruct Hall as [[-> Hh] Hl]. right.
    exists (upper_digit (o / 16)), (upper_digit (o mod 16)). by repeat split.
Qed.

Lemma flat_map_concat (f : N -> jsstring) (tokens : list jsstring) :
  flat_map f (concat tokens) = concat (map (flat_map f) tokens).
Proof.
  induction tokens as [|t tokens IH]; [reflexivity|].
  cbn [concat map]. by rewrite flat_map_app, IH.
Qed.

(** X1. Whatever [UrlEncode] returns for a string of code units is a
    sequence of letters, digits, [- _ . ~] and percent escapes, each
    escape a percent sign followed by two hex digits. *)
Theorem UrlEncode_tokens (v : value) (out : jsstring) :
  code_units (ToString v) ->
  UrlEncode v = Return out ->
  exists tokens, out = concat tokens /\ Forall url_token tokens.
Proof.
  intros Hu. unfold UrlEncode, encodeURIComponent.
  destruct (encode_points (CodePoints (ToString v))) as [s|] eqn:E; [|done].
  intros [= <-].
  destruct (encode_points_tokens _ _ (CodePoints_bound _ Hu) E)
    as (tokens & -> & Htok).
  exists (map (flat_map escape_reserved) tokens). split.
  - apply (flat_map_concat escape_reserved).
  - clear E. induction Htok as [|t tokens Ht _ IH]; [constructor|].
    cbn [map]. constructor; [by apply escape_pre_token | exact IH].
Qed.

Lemma UrlEncode_tokens_witness :
  exists tokens, js "a%20b%2F%2a" = concat tokens /\ Forall url_token tokens.
Proof.
  apply (UrlEncode_tokens (VStr (js "a b/*")) (js "a%20b%2F%2a")).
  - apply code_units_check. vm_compute. reflexivity.
  - vm_compute. reflexivity.
Defined.
